(** * Verification of the motion/scene analysis core of AutoCorteMP4

    Shallow embedding of [src/analyzer/optical_flow.py],
    [src/analyzer/scene_change.py] and [src/analyzer/cut_detector.py], of
    the GUI worker's copy of the detection loop
    ([src/gui/worker_threads.py]) and of the exporter that cuts the video
    at the detected points ([src/exporter/video_splitter.py]).

    Python floats are modelled by exact rationals [Q]; rounding is not
    modelled.  The transcendental primitives of numpy/OpenCV used by the
    flow analysis ([sqrt], [sin], [cos], [arctan2], [log], [pi]) and the
    image kernels (Farneback flow, HSV histograms, SSIM, colour
    conversion) are section variables: the code around them is written
    out as in the source. *)

From Stdlib Require Import List String ZArith QArith Qround Qabs Lqa Lia Bool.
Import ListNotations.
Open Scope Q_scope.

(** ** Float helpers *)

(** [a < b] on floats. *)
Definition qlt (a b : Q) : bool := negb (Qle_bool b a).
(** [a <= b] on floats. *)
Definition qle (a b : Q) : bool := Qle_bool a b.

(** Python's [min(a, b)]: the first argument unless the second is smaller. *)
Definition py_min (a b : Q) : Q := if qlt b a then b else a.

(** Python's float [x % m]: the result has the sign of [m]. *)
Definition pymod (x m : Q) : Q := x - m * inject_Z (Qfloor (x / m)).

(** Python's [int(x)] on a float: truncation towards zero. *)
Definition py_int (x : Q) : Z := Z.quot (Qnum x) (Zpos (Qden x)).

(** numpy's [np.mean] over a float array; [None] is the NaN that numpy
    returns for an empty array. *)
Definition np_mean (l : list Q) : option Q :=
  match l with
  | [] => None
  | _ => Some (fold_right Qplus 0 l / inject_Z (Z.of_nat (List.length l)))
  end.

(** Comparisons involving NaN are false. *)
Definition nan_lt (a : option Q) (b : Q) : bool :=
  match a with Some x => qlt x b | None => false end.
Definition nan_gt (a : option Q) (b : Q) : bool :=
  match a with Some x => qlt b x | None => false end.

(** [np.mean] over a pixel array, which is never empty for a flow field
    produced by Farneback. *)
Definition mean (l : list Q) : Q :=
  fold_right Qplus 0 l / inject_Z (Z.of_nat (List.length l)).

(** ** MovementDirection ([optical_flow.py]) *)

Inductive MovementDirection :=
| NONE | RIGHT | LEFT | UP | DOWN | UP_RIGHT | UP_LEFT | DOWN_RIGHT
| DOWN_LEFT | ZOOM_IN | ZOOM_OUT | ROTATION | MIXED.

Definition MovementDirection_eq_dec (a b : MovementDirection) : {a = b} + {a <> b}.
Proof. decide equality. Defined.

Definition direction_eqb (a b : MovementDirection) : bool :=
  if MovementDirection_eq_dec a b then true else false.

(** [MovementDirection.value]. *)
Definition value (d : MovementDirection) : string :=
  match d with
  | NONE => "parado"
  | RIGHT => "direita"
  | LEFT => "esquerda"
  | UP => "cima"
  | DOWN => "baixo"
  | UP_RIGHT => "diagonal_cima_direita"
  | UP_LEFT => "diagonal_cima_esquerda"
  | DOWN_RIGHT => "diagonal_baixo_direita"
  | DOWN_LEFT => "diagonal_baixo_esquerda"
  | ZOOM_IN => "aproximação"
  | ZOOM_OUT => "afastamento"
  | ROTATION => "rotação"
  | MIXED => "misto"
  end%string.

(** Declaration order of the enumeration. *)
Definition all_directions : list MovementDirection :=
  [NONE; RIGHT; LEFT; UP; DOWN; UP_RIGHT; UP_LEFT; DOWN_RIGHT; DOWN_LEFT;
   ZOOM_IN; ZOOM_OUT; ROTATION; MIXED].

(** [DIRECTION_ANGLES]: central angle of each compass direction. *)
Definition DIRECTION_ANGLES (d : MovementDirection) : option Q :=
  match d with
  | RIGHT => Some 0
  | UP_RIGHT => Some 45
  | UP => Some 90
  | UP_LEFT => Some 135
  | LEFT => Some 180
  | DOWN_LEFT => Some 225
  | DOWN => Some 270
  | DOWN_RIGHT => Some 315
  | _ => None
  end.

(** [_angle_to_direction_8]. *)
Definition angle_to_direction_8 (angle0 : Q) : MovementDirection :=
  let angle := pymod angle0 360 in
  if qlt angle (45#2) || qle (675#2) angle then RIGHT
  else if qle (45#2) angle && qlt angle (135#2) then UP_RIGHT
  else if qle (135#2) angle && qlt angle (225#2) then UP
  else if qle (225#2) angle && qlt angle (315#2) then UP_LEFT
  else if qle (315#2) angle && qlt angle (405#2) then LEFT
  else if qle (405#2) angle && qlt angle (495#2) then DOWN_LEFT
  else if qle (495#2) angle && qlt angle (585#2) then DOWN
  else if qle (585#2) angle && qlt angle (675#2) then DOWN_RIGHT
  else MIXED.

(** [angle_difference]. *)
Definition angle_difference (a1 a2 : Q) : Q :=
  let diff := pymod (Qabs (a1 - a2)) 360 in
  py_min diff (360 - diff).

(** The sector of a compass direction as the spec words it: the 45 degree
    sector centred on the direction's angle, lower bound included. *)
Definition in_sector (d : MovementDirection) (a : Q) : bool :=
  match DIRECTION_ANGLES d with
  | Some c => qlt (pymod (a - c + (45#2)) 360) 45
  | None => false
  end.

Definition compass8 : list MovementDirection :=
  [RIGHT; UP_RIGHT; UP; UP_LEFT; LEFT; DOWN_LEFT; DOWN; DOWN_RIGHT].

(** ** Scene change ([scene_change.py]) *)

Section SceneChange.

(** An image buffer, and the two image kernels of [scene_change.py]:
    [histogram_difference] (HSV histogram correlation) and [ssim_score]. *)
Variable Frame : Type.
Variable histogram_difference : Frame -> Frame -> Q.
Variable ssim_score : Frame -> Frame -> Q.

(** [is_scene_cut].  A zero threshold, where Python would raise
    [ZeroDivisionError], is outside the model (Q divides by zero to 0). *)
Definition is_scene_cut (frame1 frame2 : Frame)
    (histogram_threshold ssim_threshold : Q) : bool * Q :=
  let hist_diff := histogram_difference frame1 frame2 in
  let ssim := ssim_score frame1 frame2 in
  let hist_ok := qlt histogram_threshold hist_diff in
  let ssim_ok := qlt ssim ssim_threshold in
  if hist_ok && ssim_ok then
    let conf := py_min 1 ((hist_diff / histogram_threshold
                           + (1 - ssim) / (1 - ssim_threshold + (1#1000000))) / 2) in
    (true, conf)
  else if hist_ok then (true, hist_diff / histogram_threshold * (7#10))
  else if ssim_ok then (true, (1 - ssim) / (1 - ssim_threshold + (1#1000000)) * (6#10))
  else (false, 0).

End SceneChange.

(** ** CutDetector configuration ([CutDetector.__init__]) *)

(** The configuration dictionary, flattened. *)
Record Config := {
  analysis_sensitivity : Q;
  analysis_frame_skip : Z;
  optical_flow_magnitude_threshold : Q;
  optical_flow_angle_change_threshold : Q;
  optical_flow_stop_threshold : Q;
  optical_flow_window_size : Z;
  scene_change_histogram_threshold : Q;
  scene_change_ssim_threshold : Q;
  export_min_segment_duration : Q
}.

Record CutDetector := {
  sensitivity : Q;
  frame_skip : Z;
  magnitude_threshold : Q;
  angle_change_threshold : Q;
  stop_threshold : Q;
  window_size : Z;
  histogram_threshold : Q;
  ssim_threshold : Q;
  min_segment_duration : Q
}.

(** [CutDetector.__init__]; [None] is the [ZeroDivisionError] raised for a
    zero sensitivity. *)
Definition CutDetector_init (config : Config) : option CutDetector :=
  let s := analysis_sensitivity config in
  if Qeq_bool s 0 then None else
  Some {|
    sensitivity := s;
    frame_skip := analysis_frame_skip config;
    magnitude_threshold := optical_flow_magnitude_threshold config / s;
    angle_change_threshold := optical_flow_angle_change_threshold config / s;
    stop_threshold := optical_flow_stop_threshold config;
    window_size := optical_flow_window_size config;
    histogram_threshold := scene_change_histogram_threshold config / s;
    ssim_threshold := py_min (99#100) (scene_change_ssim_threshold config * s);
    min_segment_duration := export_min_segment_duration config
  |}.

(** The same configuration with another sensitivity. *)
Definition with_sensitivity (config : Config) (s : Q) : Config :=
  {| analysis_sensitivity := s;
     analysis_frame_skip := analysis_frame_skip config;
     optical_flow_magnitude_threshold := optical_flow_magnitude_threshold config;
     optical_flow_angle_change_threshold := optical_flow_angle_change_threshold config;
     optical_flow_stop_threshold := optical_flow_stop_threshold config;
     optical_flow_window_size := optical_flow_window_size config;
     scene_change_histogram_threshold := scene_change_histogram_threshold config;
     scene_change_ssim_threshold := scene_change_ssim_threshold config;
     export_min_segment_duration := export_min_segment_duration config |}.

(** ** Optical flow analysis ([optical_flow.py]) *)

(** A dense flow field: rows of per-pixel [(fx, fy)] vectors. *)
Definition Flow := list (list (Q * Q)).

Record FrameMotion := {
  magnitude : Q;
  direction : MovementDirection;
  angle_degrees : Q;
  angle_std : Q;
  is_divergent : bool;
  is_rotational : bool;
  dx_mean : Q;
  dy_mean : Q;
  raw_flow : Flow
}.

(** The pixels of a flow field with their coordinates [(y, x)], as
    [np.mgrid[0:h, 0:w]] enumerates them (row-major). *)
Definition indexed_pixels (flow : Flow) : list (Q * Q * (Q * Q)) :=
  List.concat
    (map (fun '(i, row) =>
            map (fun '(j, v) => (inject_Z (Z.of_nat i), inject_Z (Z.of_nat j), v))
                (combine (seq 0 (List.length row)) row))
         (combine (seq 0 (List.length flow)) flow)).

(** [np.average(values, weights=weights)]. *)
Definition np_average (values weights : list Q) : Q :=
  fold_right Qplus 0 (map (fun '(v, w) => v * w) (combine values weights))
  / fold_right Qplus 0 weights.

Section FlowAnalysis.

(** numpy/OpenCV floating-point primitives. *)
Variable sqrt_f : Q -> Q.
Variable arctan2_f : Q -> Q -> Q.
Variable sin_f cos_f : Q -> Q.
Variable log_f : Q -> Q.
Variable pi_f : Q.

Definition degrees (x : Q) : Q := x * 180 / pi_f.
Definition radians (x : Q) : Q := x * pi_f / 180.

(** [cv2.cartToPolar] on one pixel: magnitude and angle in [0, 2 pi). *)
Definition cart_to_polar (x y : Q) : Q * Q :=
  (sqrt_f (x * x + y * y), pymod (arctan2_f y x) (2 * pi_f)).

(** [_detect_zoom]. *)
Definition detect_zoom (flow : Flow) : bool * Q :=
  let h := inject_Z (Z.of_nat (List.length flow)) in
  let w := inject_Z (Z.of_nat (List.length (hd [] flow))) in
  let cy := h / 2 in
  let cx := w / 2 in
  let px := indexed_pixels flow in
  let dot_product :=
    map (fun '(y, x, (fx, fy)) =>
           let x_rel := x - cx in
           let y_rel := y - cy in
           let radial_dist := sqrt_f (x_rel * x_rel + y_rel * y_rel) + (1#1000000) in
           fx * (x_rel / radial_dist) + fy * (y_rel / radial_dist)) px in
  let mean_dot := mean dot_product in
  let magnitude_mean :=
    mean (map (fun '(_, _, (fx, fy)) => sqrt_f (fx * fx + fy * fy)) px) in
  if qlt magnitude_mean (3#10) then (false, 0)
  else
    let normalized_score := mean_dot / (magnitude_mean + (1#1000000)) in
    (qlt (1#4) (Qabs normalized_score), normalized_score).

(** [_detect_rotation], called with [flow[...,0]] and [flow[...,1]]. *)
Definition detect_rotation (flow : Flow) : bool :=
  let h := inject_Z (Z.of_nat (List.length flow)) in
  let w := inject_Z (Z.of_nat (List.length (hd [] flow))) in
  let cy := h / 2 in
  let cx := w / 2 in
  let px := indexed_pixels flow in
  let cross :=
    map (fun '(y, x, (fx, fy)) => (x - cx) * fy - (y - cy) * fx) px in
  let mean_cross := mean cross in
  let magnitude_mean :=
    mean (map (fun '(_, _, (fx, fy)) => sqrt_f (fx * fx + fy * fy)) px) in
  if qlt magnitude_mean (3#10) then false
  else
    let normalized_curl :=
      Qabs mean_cross / (magnitude_mean * (if qlt w h then h else w) / 2 + (1#1000000)) in
    qlt (15#100) normalized_curl.

(** [analyze_flow]. *)
Definition analyze_flow (flow : Flow) (magnitude_threshold : Q) : FrameMotion :=
  let pixels := List.concat flow in
  let fx := map fst pixels in
  let fy := map snd pixels in
  let dx_mean := mean fx in
  let dy_mean := mean fy in
  let polar := map (fun '(x, y) => cart_to_polar x (- y)) pixels in
  let magnitude := map fst polar in
  let angle_deg := map (fun a => pymod (degrees a) 360) (map snd polar) in
  let mean_magnitude := mean magnitude in
  if qlt mean_magnitude magnitude_threshold then
    {| magnitude := mean_magnitude; direction := NONE; angle_degrees := 0;
       angle_std := 0; is_divergent := false; is_rotational := false;
       dx_mean := dx_mean; dy_mean := dy_mean; raw_flow := flow |}
  else
    let weights := map (fun m => m + (1#1000000)) magnitude in
    let sin_mean := np_average (map (fun a => sin_f (radians a)) angle_deg) weights in
    let cos_mean := np_average (map (fun a => cos_f (radians a)) angle_deg) weights in
    let mean_angle := pymod (degrees (arctan2_f sin_mean cos_mean)) 360 in
    let R := sqrt_f (sin_mean * sin_mean + cos_mean * cos_mean) in
    let angle_std := degrees (sqrt_f (-2 * log_f (R + (1#1000000)))) in
    let '(is_divergent, divergence_score) := detect_zoom flow in
    let is_rotational := detect_rotation flow in
    let direction :=
      if is_rotational && negb is_divergent then ROTATION
      else if is_divergent then
        (if qlt 0 divergence_score then ZOOM_IN else ZOOM_OUT)
      else angle_to_direction_8 mean_angle in
    {| magnitude := mean_magnitude; direction := direction;
       angle_degrees := mean_angle; angle_std := angle_std;
       is_divergent := is_divergent; is_rotational := is_rotational;
       dx_mean := dx_mean; dy_mean := dy_mean; raw_flow := flow |}.

(** The per-pixel magnitudes [cv2.cartToPolar(fx, -fy)] computes. *)
Definition pixel_magnitudes (flow : Flow) : list Q :=
  map (fun '(x, y) => fst (cart_to_polar x (- y))) (List.concat flow).

End FlowAnalysis.

(** ** Motion change window ([CutDetector._detect_motion_change]) *)

(** The dictionary returned by [_detect_motion_change]. *)
Record Change := {
  changed : bool;
  change_type : option string;
  change_confidence : Q
}.

Definition no_change : Change :=
  {| changed := false; change_type := None; change_confidence := 0 |}.

(** [d_list.count(d)]. *)
Definition count_dir (d : MovementDirection) (l : list MovementDirection) : nat :=
  List.length (filter (direction_eqb d) l).

(** [max(candidates, key=l.count)]: the first candidate of maximal count. *)
Definition max_by_count (candidates l : list MovementDirection) : MovementDirection :=
  match candidates with
  | [] => NONE
  | c :: cs =>
      fold_left (fun best d => if Nat.ltb (count_dir best l) (count_dir d l) then d else best)
                cs c
  end.

(** [dominant_direction].  [set(d_list)] is iterated in the declaration
    order of the enumeration: Python's iteration order of a set of enum
    members depends on string hashing, so ties are broken by some fixed
    order of a run, and this model fixes one. *)
Definition dominant_direction (d_list0 : list MovementDirection) : MovementDirection :=
  let d_list := filter (fun d => negb (direction_eqb d NONE)) d_list0 in
  match d_list with
  | [] => NONE
  | _ => max_by_count (filter (fun d => existsb (direction_eqb d) d_list) all_directions) d_list
  end.

Section MotionChange.

Variable arctan2_f : Q -> Q -> Q.
Variable sin_f cos_f : Q -> Q.
Variable pi_f : Q.

(** [circular_mean]: [np.angle(np.mean(np.exp(1j * radians(l))))] in
    degrees modulo 360; NaN ([None]) for an empty list. *)
Definition circular_mean (ang_list : list Q) : option Q :=
  match ang_list with
  | [] => None
  | _ =>
      let re := mean (map (fun a => cos_f (radians pi_f a)) ang_list) in
      let im := mean (map (fun a => sin_f (radians pi_f a)) ang_list) in
      Some (pymod (degrees pi_f (arctan2_f im re)) 360)
  end.

(** [_detect_motion_change].  A NaN mean (empty half) makes every
    comparison false, so every rule needs both means to be numbers. *)
Definition detect_motion_change (cd : CutDetector)
    (angles mags : list Q) (dirs : list MovementDirection) : Change :=
  let half := (List.length angles / 2)%nat in
  let mags_first := firstn half mags in
  let mags_second := skipn half mags in
  let angles_first := firstn half angles in
  let angles_second := skipn half angles in
  let mean_mag_first := np_mean mags_first in
  let mean_mag_second := np_mean mags_second in
  let angle_first := circular_mean angles_first in
  let angle_second := circular_mean angles_second in
  let dir_first := dominant_direction (firstn half dirs) in
  let dir_second := dominant_direction (skipn half dirs) in
  let mt := magnitude_threshold cd in
  match mean_mag_first, mean_mag_second with
  | Some f, Some s =>
      (* Parou *)
      if qlt (mt * (3#2)) f && qlt s (mt * stop_threshold cd) then
        {| changed := true; change_type := Some ("parada_" ++ value dir_first)%string;
           change_confidence := py_min 1 (f / (s + (1#10)) / 8) |}
      (* Começou *)
      else if qlt f (mt * stop_threshold cd) && qlt (mt * (3#2)) s then
        {| changed := true; change_type := Some ("inicio_" ++ value dir_second)%string;
           change_confidence := py_min 1 (s / (f + (1#10)) / 8) |}
      (* Mudança de ângulo *)
      else if qlt mt f && qlt mt s then
        match angle_first, angle_second with
        | Some a1, Some a2 =>
            let ang_diff := angle_difference a1 a2 in
            if qle (angle_change_threshold cd) ang_diff then
              {| changed := true;
                 change_type := Some ("mudança_" ++ value dir_first ++ "_para_"
                                      ++ value dir_second)%string;
                 change_confidence := py_min 1 (ang_diff / 180) |}
            else no_change
        | _, _ => no_change
        end
      else no_change
  | _, _ => no_change
  end.

End MotionChange.

(** ** The detection loop ([CutDetector.detect]) *)

(** A cut point, the dictionary appended to [cut_points]. *)
Record CutEvent := {
  frame : Z;
  timestamp : Q;
  cut_type : string;
  confidence : Q;
  angle : Q;
  cut_magnitude : Q;
  cut_direction : string
}.

(** Python's outcome: a value, or the exception raised. *)
Inductive Result (A : Type) :=
| Ok (a : A)
| Err (msg : string).
Arguments Ok {A} a.
Arguments Err {A} msg.

(** [deque(maxlen=n).append(x)] for [n >= 0]: the oldest samples drop out. *)
Definition deque_append {A : Type} (maxlen : Z) (w : list A) (x : A) : list A :=
  let w' := w ++ [x] in
  skipn (List.length w' - Z.to_nat maxlen) w'.

(** Truthiness of [cut_reason] ([None] or a string). *)
Definition truthy (s : option string) : bool :=
  match s with
  | Some t => negb (String.eqb t "")
  | None => false
  end.

Section Detect.

Variable Frame : Type.

(** [cv2.VideoCapture]: whether it opened, [CAP_PROP_FPS],
    [CAP_PROP_FRAME_COUNT], and the outcomes of successive [read()] calls
    ([None] for [ret == False]); reads past the end fail. *)
Record VideoSource := {
  opened : bool;
  cap_fps : Q;
  frame_count : Z;
  reads : list (option Frame)
}.

(** [cap.read()] on the remaining reads. *)
Definition cap_read (cap : list (option Frame)) : option Frame * list (option Frame) :=
  match cap with
  | [] => (None, [])
  | r :: rest => (r, rest)
  end.

(** OpenCV and numpy kernels. *)
Variable cvt_gray : Frame -> Frame.
Variable compute_optical_flow : Frame -> Frame -> Flow.
Variable histogram_difference ssim_score : Frame -> Frame -> Q.
Variable sqrt_f : Q -> Q.
Variable arctan2_f : Q -> Q -> Q.
Variable sin_f cos_f log_f : Q -> Q.
Variable pi_f : Q.

Variable cd : CutDetector.

(** [fps = cap.get(cv2.CAP_PROP_FPS) or 30.0]. *)
Definition effective_fps (src : VideoSource) : Q :=
  if Qeq_bool (cap_fps src) 0 then 30 else cap_fps src.

(** [min_frames_between_cuts = int(self.min_segment_duration * fps)]. *)
Definition min_frames_between_cuts (fps : Q) : Z :=
  py_int (min_segment_duration cd * fps).

Record DetectState := {
  cut_points : list CutEvent;
  last_cut_frame : Z;
  angle_window : list Q;
  magnitude_window : list Q;
  direction_window : list MovementDirection;
  prev_frame : Frame;
  prev_gray : Frame;
  frame_number : Z;
  cap : list (option Frame)
}.

(** Lines 107-115: the motion-change candidate [(cut_reason, confidence)]. *)
Definition motion_candidate (aw mw : list Q) (dw : list MovementDirection)
    : option string * Q :=
  if Z.leb (window_size cd) (Z.of_nat (List.length mw)) then
    let change := detect_motion_change arctan2_f sin_f cos_f pi_f cd aw mw dw in
    if changed change then (change_type change, change_confidence change)
    else (None, 0)
  else (None, 0).

(** Lines 117-124: the scene-cut override of the candidate. *)
Definition evaluate_candidate (aw mw : list Q) (dw : list MovementDirection)
    (prev curr : Frame) : option string * Q :=
  let '(cut_reason, confidence) := motion_candidate aw mw dw in
  let '(scene_cut, scene_conf) :=
    is_scene_cut Frame histogram_difference ssim_score prev curr
      (histogram_threshold cd) (ssim_threshold cd) in
  if scene_cut && qlt confidence scene_conf then (Some "corte_de_cena"%string, scene_conf)
  else (cut_reason, confidence).

(** One iteration of the [while] loop after [curr_frame] was read
    successfully ([frame_number] is the value before [+= 1]). *)
Definition step (fps : Q) (minf : Z) (st : DetectState) (curr : Frame)
    (cap' : list (option Frame)) (fn : Z) : DetectState :=
  let frame_number := (fn + 1)%Z in
  let curr_gray := cvt_gray curr in
  let flow := compute_optical_flow (prev_gray st) curr_gray in
  let motion := analyze_flow sqrt_f arctan2_f sin_f cos_f log_f pi_f flow
                  (magnitude_threshold cd) in
  let aw := deque_append (window_size cd) (angle_window st) (angle_degrees motion) in
  let mw := deque_append (window_size cd) (magnitude_window st) (magnitude motion) in
  let dw := deque_append (window_size cd) (direction_window st) (direction motion) in
  let frames_since_last_cut := (frame_number - last_cut_frame st)%Z in
  if Z.ltb frames_since_last_cut minf then
    {| cut_points := cut_points st; last_cut_frame := last_cut_frame st;
       angle_window := aw; magnitude_window := mw; direction_window := dw;
       prev_frame := curr; prev_gray := curr_gray;
       frame_number := frame_number; cap := cap' |}
  else
    let '(cut_reason, confidence) := evaluate_candidate aw mw dw (prev_frame st) curr in
    if truthy cut_reason then
      let ev := {| frame := frame_number;
                   timestamp := inject_Z frame_number / fps;
                   cut_type := match cut_reason with Some t => t | None => ""%string end;
                   confidence := confidence;
                   angle := angle_degrees motion;
                   cut_magnitude := magnitude motion;
                   cut_direction := value (direction motion) |} in
      {| cut_points := cut_points st ++ [ev]; last_cut_frame := frame_number;
         angle_window := []; magnitude_window := []; direction_window := [];
         prev_frame := curr; prev_gray := curr_gray;
         frame_number := frame_number; cap := cap' |}
    else
      {| cut_points := cut_points st; last_cut_frame := last_cut_frame st;
         angle_window := aw; magnitude_window := mw; direction_window := dw;
         prev_frame := curr; prev_gray := curr_gray;
         frame_number := frame_number; cap := cap' |}.

(** The frame-skip loop: [frame_skip] reads whose outcome is ignored. *)
Fixpoint skip_frames (n : nat) (c : list (option Frame)) (fn : Z)
    : list (option Frame) * Z :=
  match n with
  | O => (c, fn)
  | S n' => skip_frames n' (snd (cap_read c)) (fn + 1)%Z
  end.

(** The [while True] loop.  [stop_flag k] is what the stop callable
    returns at its [k]-th poll (constantly [false] when none is given).
    Every iteration that does not break consumes a read, so a fuel of one
    more than the number of reads left never runs out. *)
Fixpoint detect_loop (stop_flag : nat -> bool) (fps : Q) (minf : Z)
    (fuel iter : nat) (st : DetectState) : DetectState :=
  match fuel with
  | O => st
  | S fuel' =>
      if stop_flag iter then st else
      let '(c1, fn1) := skip_frames (Z.to_nat (frame_skip cd)) (cap st) (frame_number st) in
      match cap_read c1 with
      | (None, _) => st
      | (Some curr, c2) =>
          detect_loop stop_flag fps minf fuel' (S iter) (step fps minf st curr c2 fn1)
      end
  end.

(** [CutDetector.detect]. *)
Definition detect (src : VideoSource) (stop_flag : nat -> bool) : Result (list CutEvent) :=
  if negb (opened src) then Err "Não foi possível abrir"%string else
  let fps := effective_fps src in
  let minf := min_frames_between_cuts fps in
  if Z.ltb (window_size cd) 0 then Err "maxlen must be non-negative"%string else
  match cap_read (reads src) with
  | (None, _) => Ok []
  | (Some prev, c1) =>
      let st0 := {| cut_points := []; last_cut_frame := 0; angle_window := [];
                    magnitude_window := []; direction_window := [];
                    prev_frame := prev; prev_gray := cvt_gray prev;
                    frame_number := 1; cap := c1 |} in
      Ok (cut_points (detect_loop stop_flag fps minf (S (List.length c1)) 0 st0))
  end.

(** ** The GUI worker's copy of the loop ([AnalysisWorker.run])

    [detect_with_signal] in [src/gui/worker_threads.py] re-implements the
    loop of [CutDetector.detect] with the detector's settings; the Qt
    signals it emits are not modelled. *)

(** One iteration after [curr_frame] was read: motion and scene tests
    both run only when [frames_since >= min_frames] and the magnitude
    window is full. *)
Definition worker_step (fps : Q) (min_frames : Z) (st : DetectState) (curr : Frame)
    (cap' : list (option Frame)) (fn : Z) : DetectState :=
  let frame_number := (fn + 1)%Z in
  let curr_gray := cvt_gray curr in
  let flow := compute_optical_flow (prev_gray st) curr_gray in
  let motion := analyze_flow sqrt_f arctan2_f sin_f cos_f log_f pi_f flow
                  (magnitude_threshold cd) in
  let aw := deque_append (window_size cd) (angle_window st) (angle_degrees motion) in
  let mw := deque_append (window_size cd) (magnitude_window st) (magnitude motion) in
  let dw := deque_append (window_size cd) (direction_window st) (direction motion) in
  let frames_since := (frame_number - last_cut_frame st)%Z in
  let no_cut :=
    {| cut_points := cut_points st; last_cut_frame := last_cut_frame st;
       angle_window := aw; magnitude_window := mw; direction_window := dw;
       prev_frame := curr; prev_gray := curr_gray;
       frame_number := frame_number; cap := cap' |} in
  if Z.leb min_frames frames_since && Z.leb (window_size cd) (Z.of_nat (List.length mw)) then
    let change := detect_motion_change arctan2_f sin_f cos_f pi_f cd aw mw dw in
    let '(cut_reason, confidence) :=
      if changed change then (change_type change, change_confidence change)
      else (None, 0) in
    let '(scene_cut, scene_conf) :=
      is_scene_cut Frame histogram_difference ssim_score (prev_frame st) curr
        (histogram_threshold cd) (ssim_threshold cd) in
    let '(cut_reason, confidence) :=
      if scene_cut && qlt confidence scene_conf then (Some "corte_de_cena"%string, scene_conf)
      else (cut_reason, confidence) in
    if truthy cut_reason then
      let cut_info := {| frame := frame_number;
                         timestamp := inject_Z frame_number / fps;
                         cut_type := match cut_reason with Some t => t | None => ""%string end;
                         confidence := confidence;
                         angle := angle_degrees motion;
                         cut_magnitude := magnitude motion;
                         cut_direction := value (direction motion) |} in
      {| cut_points := cut_points st ++ [cut_info]; last_cut_frame := frame_number;
         angle_window := []; magnitude_window := []; direction_window := [];
         prev_frame := curr; prev_gray := curr_gray;
         frame_number := frame_number; cap := cap' |}
    else no_cut
  else no_cut.

(** The worker's [while True] loop; [stop k] is [self._stop] at its
    [k]-th poll. *)
Fixpoint worker_loop (stop : nat -> bool) (fps : Q) (min_frames : Z)
    (fuel iter : nat) (st : DetectState) : DetectState :=
  match fuel with
  | O => st
  | S fuel' =>
      if stop iter then st else
      let '(c1, fn1) := skip_frames (Z.to_nat (frame_skip cd)) (cap st) (frame_number st) in
      match cap_read c1 with
      | (None, _) => st
      | (Some curr, c2) =>
          worker_loop stop fps min_frames fuel' (S iter) (worker_step fps min_frames st curr c2 fn1)
      end
  end.

(** [detect_with_signal]: the cut list it returns (and emits as
    [finished]), or the exception that [run] reports through [error]. *)
Definition detect_with_signal (src : VideoSource) (stop : nat -> bool)
    : Result (list CutEvent) :=
  if negb (opened src) then Err "Não foi possível abrir"%string else
  let fps := effective_fps src in
  let min_frames := min_frames_between_cuts fps in
  if Z.ltb (window_size cd) 0 then Err "maxlen must be non-negative"%string else
  match cap_read (reads src) with
  | (None, _) => Ok []
  | (Some prev, c1) =>
      let st0 := {| cut_points := []; last_cut_frame := 0; angle_window := [];
                    magnitude_window := []; direction_window := [];
                    prev_frame := prev; prev_gray := cvt_gray prev;
                    frame_number := 1; cap := c1 |} in
      Ok (cut_points (worker_loop stop fps min_frames (S (List.length c1)) 0 st0))
  end.

End Detect.

(** Consecutive events of a cut list are at least [minf] frames apart. *)
Definition spaced (minf : Z) (l : list CutEvent) : Prop :=
  forall l1 e1 e2 l2, l = l1 ++ e1 :: e2 :: l2 -> (minf <= frame e2 - frame e1)%Z.

(** The loop invariant of [detect]: spaced events, the last one at
    [last_cut_frame], each stamped with [frame / fps]. *)
Definition cut_invariant {Frame : Type} (fps : Q) (minf : Z) (st : DetectState Frame) : Prop :=
  spaced minf (cut_points _ st) /\
  (forall l e, cut_points _ st = l ++ [e] -> frame e = last_cut_frame _ st) /\
  Forall (fun e => timestamp e = inject_Z (frame e) / fps) (cut_points _ st).

(** ** The exporter ([src/exporter/video_splitter.py])

    [VideoSplitter.split] cuts the video at the timestamps of the cut list.
    The outside world is a set of section variables: the outcome of a
    [subprocess.run] ([returncode == 0], [False] on a timeout or a missing
    binary), [os.path.exists], [Path(p).stem], float formatting
    [f"{x:.3f}"], and the helpers that only talk to ffprobe or OpenCV
    ([_get_duration], [_find_dji_subtitle_stream], [_generate_thumbnail]).
    [os.path.join] is POSIX's.  The [progress_callback] only reports and is
    not modelled. *)

(** [str(n)] for a natural number. *)
Fixpoint decimal_aux (fuel n : nat) (acc : string) : string :=
  match fuel with
  | O => acc
  | S f =>
      let acc' := String (Ascii.ascii_of_nat (48 + n mod 10)) acc in
      if Nat.ltb n 10 then acc' else decimal_aux f (n / 10) acc'
  end.

Definition str_nat (n : nat) : string := decimal_aux (S n) n "".

(** [str(z)] for a Python [int]. *)
Definition str_Z (z : Z) : string :=
  if Z.ltb z 0 then ("-" ++ str_nat (Z.to_nat (- z)))%string else str_nat (Z.to_nat z).

Fixpoint zeros (k : nat) : string :=
  match k with
  | O => ""
  | S k' => String (Ascii.ascii_of_nat 48) (zeros k')
  end.

(** [f"{i:03d}"] for [i >= 0]. *)
Definition pad3 (i : nat) : string :=
  let s := str_nat i in (zeros (3 - String.length s) ++ s)%string.

Fixpoint ends_with_slash (s : string) : bool :=
  match s with
  | EmptyString => false
  | String c EmptyString => Ascii.eqb c (Ascii.ascii_of_nat 47)
  | String _ r => ends_with_slash r
  end.

(** [posixpath.join(a, b)]. *)
Definition path_join (a b : string) : string :=
  if String.prefix "/" b then b
  else if String.eqb a "" || ends_with_slash a then (a ++ b)%string
  else (a ++ "/" ++ b)%string.

(** The attributes [split] reads from the splitter. *)
Record VideoSplitter := {
  codec : string;
  output_format : string;
  ffmpeg_threads : Z;
  export_telemetry_srt : bool
}.

Section Splitter.

Variable Thumb : Type.
(** [subprocess.run(cmd, ..., timeout=t).returncode == 0], [False] when
    it raises [TimeoutExpired] or [FileNotFoundError]. *)
Variable run_ok : list string -> Z -> bool.
Variable path_exists : string -> bool.
Variable path_stem : string -> string.
Variable fmt3 : Q -> string.
Variable get_duration : string -> Q.
Variable find_dji_subtitle_stream : string -> option Z.
Variable generate_thumbnail : string -> option Thumb.

(** The dictionary [seg_info]. *)
Record SegInfo := {
  index : nat;
  seg_path : string;
  seg_start : Q;
  seg_end : Q;
  duration : Q;
  success : bool;
  telemetry_srt : option string;
  thumbnail : option Thumb;
  seg_cut_type : string
}.

(** The filler [nth] needs; [cut_points[i-1]] is in range where it is read. *)
Definition no_event : CutEvent :=
  {| frame := 0; timestamp := 0; cut_type := ""; confidence := 0;
     angle := 0; cut_magnitude := 0; cut_direction := "" |}.

Definition segment_filename (vs : VideoSplitter) (input_stem : string) (i : nat) : string :=
  (input_stem ++ "_segmento_" ++ pad3 i ++ "." ++ output_format vs)%string.

Definition telemetry_filename (input_stem : string) (i : nat) : string :=
  (input_stem ++ "_segmento_" ++ pad3 i ++ "_telemetria.srt")%string.

(** [_extract_segment]. *)
Definition extract_segment_cmd (vs : VideoSplitter) (input_path : string) (start dur : Q)
    (output_path : string) : list string :=
  ["ffmpeg"; "-y"; "-ss"; fmt3 start; "-i"; input_path; "-t"; fmt3 dur]%string ++
  (if Z.ltb 0 (ffmpeg_threads vs) then ["-threads"; str_Z (ffmpeg_threads vs)]%string else []) ++
  ["-c"; codec vs; "-avoid_negative_ts"; "1"; output_path]%string.

Definition extract_segment (vs : VideoSplitter) (input_path : string) (start dur : Q)
    (output_path : string) : bool :=
  run_ok (extract_segment_cmd vs input_path start dur output_path) 300.

(** [_extract_segment_telemetry]. *)
Definition extract_segment_telemetry (input_path : string) (start dur : Q)
    (output_srt : string) (stream_index : Z) : bool :=
  run_ok ["ffmpeg"; "-y"; "-ss"; fmt3 start; "-i"; input_path; "-t"; fmt3 dur;
          "-map"; "0:" ++ str_Z stream_index; "-c:s"; "srt"; output_srt]%string 120
  && path_exists output_srt.

(** The [for] loop of [split] from its [i]-th pair on; [stop_flag k] is
    the answer of the [k]-th call of [stop_flag()] ([fun _ => false] when
    no flag is given). *)
Fixpoint split_loop (vs : VideoSplitter) (input_path : string) (cut_points : list CutEvent)
    (output_dir input_stem : string) (telemetry_stream_index : option Z)
    (stop_flag : nat -> bool) (i : nat) (pairs : list (Q * Q)) : list SegInfo :=
  match pairs with
  | [] => []
  | (start, end_) :: rest =>
      if stop_flag (i - 1)%nat then [] else
      let duration := end_ - start in
      if qlt duration (1#10) then
        split_loop vs input_path cut_points output_dir input_stem telemetry_stream_index
          stop_flag (S i) rest
      else
      let output_path := path_join output_dir (segment_filename vs input_stem i) in
      let success := extract_segment vs input_path start duration output_path in
      let telemetry_path :=
        match success, telemetry_stream_index with
        | true, Some idx =>
            let telemetry_path := path_join output_dir (telemetry_filename input_stem i) in
            if extract_segment_telemetry input_path start duration telemetry_path idx
            then Some telemetry_path else None
        | _, _ => None
        end in
      let thumbnail :=
        if success && path_exists output_path then generate_thumbnail output_path else None in
      {| index := i; seg_path := output_path; seg_start := start; seg_end := end_;
         duration := duration; success := success; telemetry_srt := telemetry_path;
         thumbnail := thumbnail;
         seg_cut_type := if Nat.leb i (List.length cut_points)
                         then cut_type (nth (i - 1) cut_points no_event)
                         else "fim"%string |}
        :: split_loop vs input_path cut_points output_dir input_stem telemetry_stream_index
             stop_flag (S i) rest
  end.

(** The boundaries [[0.0] + [cp["timestamp"] ...] + [total_duration]]. *)
Definition split_timestamps (input_path : string) (cut_points : list CutEvent) : list Q :=
  (0 :: map timestamp cut_points) ++ [get_duration input_path].

(** [VideoSplitter.split]. *)
Definition split (vs : VideoSplitter) (input_path : string) (cut_points : list CutEvent)
    (output_dir : string) (stop_flag : nat -> bool) : list SegInfo :=
  let timestamps := split_timestamps input_path cut_points in
  let input_stem := path_stem input_path in
  let telemetry_stream_index :=
    if export_telemetry_srt vs then find_dji_subtitle_stream input_path else None in
  split_loop vs input_path cut_points output_dir input_stem telemetry_stream_index stop_flag 1
    (combine (removelast timestamps) (tl timestamps)).

End Splitter.

(** ** A concrete instantiation, for the witnesses and counterexamples

    Frames are identified by their index; the flow between any two frames
    is a still 2x2 field, the histogram difference is 0.4 and the SSIM is
    0.9 for every pair.  The float primitives are low-order rational
    approximations of the numpy functions. *)
Module Sample.

Definition Frame := nat.
Definition cvt_gray (f : Frame) : Frame := f.
Definition still_flow (a b : Frame) : Flow := [[(0, 0); (0, 0)]; [(0, 0); (0, 0)]].
Definition hist_04 (a b : Frame) : Q := 2#5.
Definition ssim_09 (a b : Frame) : Q := 9#10.

Definition pi_q : Q := 355#113.
Definition sqrt_q (q : Q) : Q :=
  inject_Z (Z.sqrt (Qnum q * Zpos (Qden q))) / inject_Z (Zpos (Qden q)).
Definition atan_q (z : Q) : Q := z / (1 + (7#25) * z * z).
Definition arctan2_q (y x : Q) : Q :=
  if Qeq_bool x 0 && Qeq_bool y 0 then 0
  else if Qle_bool (Qabs y) (Qabs x) then
    let base := atan_q (y / x) in
    if qlt 0 x then base else if qle 0 y then base + pi_q else base - pi_q
  else if qlt 0 y then pi_q / 2 - atan_q (x / y) else - (pi_q / 2) - atan_q (x / y).
Definition sin_q (x : Q) : Q := x - x * x * x / 6 + x * x * x * x * x / 120.
Definition cos_q (x : Q) : Q := 1 - x * x / 2 + x * x * x * x / 24.
Definition log_q (x : Q) : Q :=
  let t := (x - 1) / (x + 1) in 2 * (t + t * t * t / 3).

(** A configuration: sensitivity 1, no frame skip, window of 4 samples. *)
Definition config (frame_skip ws : Z) (msd : Q) : Config :=
  {| analysis_sensitivity := 1; analysis_frame_skip := frame_skip;
     optical_flow_magnitude_threshold := 1;
     optical_flow_angle_change_threshold := 30;
     optical_flow_stop_threshold := 3#10;
     optical_flow_window_size := ws;
     scene_change_histogram_threshold := 1#5;
     scene_change_ssim_threshold := 7#10;
     export_min_segment_duration := msd |}.

Definition detector (frame_skip ws : Z) (msd : Q) : CutDetector :=
  match CutDetector_init (config frame_skip ws msd) with
  | Some cd => cd
  | None => {| sensitivity := 1; frame_skip := 0; magnitude_threshold := 1;
               angle_change_threshold := 30; stop_threshold := 3#10; window_size := 4;
               histogram_threshold := 1#5; ssim_threshold := 7#10;
               min_segment_duration := 0 |}
  end.

Definition source (fps : Q) (rs : list (option Frame)) : VideoSource Frame :=
  {| opened := true; cap_fps := fps; frame_count := Z.of_nat (List.length rs);
     reads := rs |}.

(** [n] readable frames. *)
Definition frames (n : nat) : list (option Frame) := map Some (seq 0 n).

Definition run (cd : CutDetector) (src : VideoSource Frame) : Result (list CutEvent) :=
  detect Frame cvt_gray still_flow hist_04 ssim_09 sqrt_q arctan2_q sin_q cos_q log_q pi_q
    cd src (fun _ => false).

Definition worker_run (cd : CutDetector) (src : VideoSource Frame) : Result (list CutEvent) :=
  detect_with_signal Frame cvt_gray still_flow hist_04 ssim_09 sqrt_q arctan2_q sin_q cos_q
    log_q pi_q cd src (fun _ => false).

(** The events these runs emit: scene cuts on a still picture. *)
Definition cut_at (fn : Z) (ts : Q) : CutEvent :=
  {| frame := fn; timestamp := ts; cut_type := "corte_de_cena"; confidence := 70#50;
     angle := 0; cut_magnitude := 0#4; cut_direction := "parado" |}.

(** A slow flow field: four pixels moving 0.1 in four directions. *)
Definition small_flow : Flow :=
  [[(1#10, 0); (0, 1#10)]; [(-(1#10), 0); (0, -(1#10))]].


(** A zoom-in field on a 2x2 frame: every pixel moves away from the
    centre [(1, 1)]. *)
Definition zoom_flow : Flow := [[(-2, -2); (0, -2)]; [(-2, 0); (0, 0)]].

(** An exporter whose ffmpeg runs all succeed, on a 10 s clip named
    [clip] with a DJI subtitle stream at index 2. *)
Definition splitter : VideoSplitter :=
  {| codec := "copy"; output_format := "mp4"; ffmpeg_threads := 2;
     export_telemetry_srt := true |}.

Definition split_cuts : list CutEvent := [cut_at 2 2; cut_at 5 5].

Definition ffmpeg_ok (cmd : list string) (timeout : Z) : bool := true.
Definition file_exists (p : string) : bool := true.
Definition stem_clip (p : string) : string := "clip".
Definition fmt_zero (x : Q) : string := "0.000".
Definition duration_10 (p : string) : Q := 10.
Definition dji_stream_2 (p : string) : option Z := Some 2%Z.
Definition thumb_unit (p : string) : option unit := Some tt.

Definition sample_split (stop_flag : nat -> bool) : list (SegInfo unit) :=
  split unit ffmpeg_ok file_exists stem_clip fmt_zero duration_10 dji_stream_2 thumb_unit
    splitter "clip.mp4" split_cuts "out" stop_flag.

Definition no_seg : SegInfo unit :=
  {| index := 0; seg_path := ""; seg_start := 0; seg_end := 0; duration := 0;
     success := false; telemetry_srt := None; thumbnail := None; seg_cut_type := "" |}.

(** The detector of [config 0 4 1], written out. *)
Definition motion_detector : CutDetector :=
  {| sensitivity := 1; frame_skip := 0; magnitude_threshold := 1;
     angle_change_threshold := 30; stop_threshold := 3#10; window_size := 4;
     histogram_threshold := 1#5; ssim_threshold := 7#10; min_segment_duration := 1 |}.

End Sample.

(** * Theorems *)

(** ** Generic lemmas on the float helpers *)

Lemma qlt_spec (a b : Q) : reflect (a < b) (qlt a b).
Proof.
  unfold qlt. destruct (Qle_bool b a) eqn:E; constructor.
  - apply Qle_bool_iff in E. lra.
  - apply Qnot_le_lt. intro H. apply Qle_bool_iff in H. congruence.
Qed.

Lemma qle_spec (a b : Q) : reflect (a <= b) (qle a b).
Proof.
  unfold qle. destruct (Qle_bool a b) eqn:E; constructor.
  - apply Qle_bool_iff in E. exact E.
  - intro H. apply Qle_bool_iff in H. congruence.
Qed.

Lemma Qfloor_unique (q : Q) (k : Z) :
  inject_Z k <= q -> q < inject_Z k + 1 -> Qfloor q = k.
Proof.
  intros H1 H2.
  assert (A : (k <= Qfloor q)%Z).
  { rewrite <- (Qfloor_Z k). apply Qfloor_resp_le. exact H1. }
  assert (B : (Qfloor q < k + 1)%Z).
  { rewrite Zlt_Qlt, inject_Z_plus. pose proof (Qfloor_le q).
    assert (inject_Z 1 == 1) by reflexivity. lra. }
  lia.
Qed.

Lemma pymod_k (x m : Q) (k : Z) :
  0 < m -> inject_Z k * m <= x -> x < (inject_Z k + 1) * m ->
  pymod x m == x - inject_Z k * m.
Proof.
  intros Hm H1 H2. unfold pymod.
  rewrite (Qfloor_unique (x / m) k).
  - ring.
  - apply Qle_shift_div_l; [exact Hm | lra].
  - apply Qlt_shift_div_r; [exact Hm | lra].
Qed.

Lemma pymod_range3 (x m : Q) :
  0 < m -> - m <= x -> x < 2 * m ->
  (x < 0 /\ pymod x m == x + m) \/
  (0 <= x /\ x < m /\ pymod x m == x) \/
  (m <= x /\ pymod x m == x - m).
Proof.
  intros Hm H1 H2.
  assert (Em : inject_Z (-1) == -1) by reflexivity.
  assert (E0 : inject_Z 0 == 0) by reflexivity.
  assert (E1 : inject_Z 1 == 1) by reflexivity.
  destruct (Qlt_le_dec x 0) as [L|L]; [left|right].
  - split; [exact L|]. rewrite (pymod_k x m (-1)); rewrite ?Em; try lra.
  - destruct (Qlt_le_dec x m) as [L2|L2]; [left|right].
    + repeat split; try lra. rewrite (pymod_k x m 0); rewrite ?E0; try lra.
    + split; [exact L2|]. rewrite (pymod_k x m 1); rewrite ?E1; try lra.
Qed.

(** Case analysis on the float comparisons of the first [if] of the goal. *)
Ltac if_step :=
  match goal with
  | |- context [if ?c then _ else _] =>
      match c with
      | context [qlt ?x ?y] => destruct (qlt_spec x y)
      | context [qle ?x ?y] => destruct (qle_spec x y)
      end
  end; cbn [orb andb]; try (exfalso; lra).

Lemma pymod_in_range (a : Q) : 0 <= a -> a < 360 -> pymod a 360 == a.
Proof.
  intros H0 H1.
  destruct (pymod_range3 a 360) as [[? ?]|[[? [? E]]|[? ?]]]; lra.
Qed.

(** [C6] The 8-way bucket is exhaustive and non-overlapping on [0,360):
    it never returns [MIXED], and it returns the compass direction [d]
    exactly when the angle lies in the 45 degree sector centred on
    [DIRECTION_ANGLES d], lower bound included. *)
Theorem angle_to_direction_8_sectors (a : Q) (H0 : 0 <= a) (H1 : a < 360) :
  angle_to_direction_8 a <> MIXED /\
  forall d, In d compass8 -> (angle_to_direction_8 a = d <-> in_sector d a = true).
Proof.
  pose proof (pymod_in_range a H0 H1) as Hb.
  unfold angle_to_direction_8.
  remember (pymod a 360) as b eqn:Eb. clear Eb.
  split.
  - repeat if_step; try discriminate; lra.
  - intros d Hd.
    destruct Hd as [<-|[<-|[<-|[<-|[<-|[<-|[<-|[<-|[]]]]]]]]];
      unfold in_sector; cbn [DIRECTION_ANGLES];
      match goal with
      | |- context [pymod ?x 360] =>
          destruct (pymod_range3 x 360) as [[? E]|[[? [? E]]|[? E]]]; try lra;
          remember (pymod x 360) as p eqn:Ep; clear Ep
      end;
      repeat if_step;
      destruct (qlt_spec p 45); split; intros;
      try reflexivity; try discriminate; exfalso; lra.
Qed.

Lemma py_min_spec (a b : Q) :
  (b < a -> py_min a b = b) /\ (a <= b -> py_min a b = a).
Proof.
  unfold py_min. destruct (qlt_spec b a); split; intros; try reflexivity; lra.
Qed.

Lemma div_lt_antimono (r s1 s2 : Q) : 0 < r -> 0 < s1 -> s1 < s2 -> r / s2 < r / s1.
Proof.
  intros Hr H1 H2. unfold Qdiv. apply Qmult_lt_l; [exact Hr|].
  apply (Qinv_lt_contravar s1 s2); lra.
Qed.

Lemma CutDetector_init_some (config : Config) :
  0 < analysis_sensitivity config ->
  exists cd, CutDetector_init config = Some cd.
Proof.
  intros Hs. unfold CutDetector_init.
  destruct (Qeq_bool (analysis_sensitivity config) 0) eqn:E.
  - apply Qeq_bool_iff in E. lra.
  - eexists; reflexivity.
Qed.

(** [C8] For sensitivities [0 < s1 < s2] (every other setting equal), the
    detector's effective thresholds are [raw / s] for the magnitude, angle
    and histogram thresholds and [min(0.99, raw * s)] for the SSIM
    threshold; [s = 0.5] doubles the magnitude threshold; and the larger
    sensitivity gives strictly lower magnitude/angle/histogram thresholds
    (for positive raw values) and a higher SSIM threshold, capped at 0.99. *)
Theorem CutDetector_init_sensitivity (config : Config) (s1 s2 : Q)
    (H1 : 0 < s1) (H12 : s1 < s2) :
  exists cd1 cd2,
    CutDetector_init (with_sensitivity config s1) = Some cd1 /\
    CutDetector_init (with_sensitivity config s2) = Some cd2 /\
    magnitude_threshold cd1 = optical_flow_magnitude_threshold config / s1 /\
    angle_change_threshold cd1 = optical_flow_angle_change_threshold config / s1 /\
    histogram_threshold cd1 = scene_change_histogram_threshold config / s1 /\
    (scene_change_ssim_threshold config * s1 < 99#100 ->
       ssim_threshold cd1 = scene_change_ssim_threshold config * s1) /\
    (99#100 <= scene_change_ssim_threshold config * s1 ->
       ssim_threshold cd1 = 99#100) /\
    (s1 == 1#2 -> magnitude_threshold cd1 == 2 * optical_flow_magnitude_threshold config) /\
    (0 < optical_flow_magnitude_threshold config ->
       magnitude_threshold cd2 < magnitude_threshold cd1) /\
    (0 < optical_flow_angle_change_threshold config ->
       angle_change_threshold cd2 < angle_change_threshold cd1) /\
    (0 < scene_change_histogram_threshold config ->
       histogram_threshold cd2 < histogram_threshold cd1) /\
    (0 < scene_change_ssim_threshold config ->
       ssim_threshold cd1 <= ssim_threshold cd2 /\ ssim_threshold cd2 <= 99#100 /\
       (scene_change_ssim_threshold config * s1 < 99#100 ->
          ssim_threshold cd1 < ssim_threshold cd2)).
Proof.
  destruct (CutDetector_init_some (with_sensitivity config s1)) as [cd1 E1]; [exact H1|].
  destruct (CutDetector_init_some (with_sensitivity config s2)) as [cd2 E2]; [change (0 < s2); lra|].
  exists cd1, cd2. split; [exact E1|]. split; [exact E2|].
  unfold CutDetector_init in E1, E2. cbn [analysis_sensitivity with_sensitivity] in E1, E2.
  destruct (Qeq_bool s1 0); [discriminate|]. destruct (Qeq_bool s2 0); [discriminate|].
  injection E1 as <-. injection E2 as <-. cbn.
  set (m := optical_flow_magnitude_threshold config).
  set (r := scene_change_ssim_threshold config).
  destruct (py_min_spec (99#100) (r * s1)) as [A1 A2].
  destruct (py_min_spec (99#100) (r * s2)) as [B1 B2].
  assert (Hm12 : 0 < r -> r * s1 < r * s2) by (intros; apply Qmult_lt_l; assumption).
  set (rs1 := r * s1) in *. set (rs2 := r * s2) in *.
  repeat match goal with |- _ /\ _ => split end; try reflexivity.
  - apply A1.
  - apply A2.
  - intros Hh. rewrite Hh. unfold Qdiv. change (/ (1#2)) with (2#1). ring.
  - intros Hm. apply div_lt_antimono; assumption.
  - intros Hm. apply div_lt_antimono; assumption.
  - intros Hm. apply div_lt_antimono; assumption.
  - intros Hr. specialize (Hm12 Hr).
    destruct (Qlt_le_dec rs1 (99#100)); destruct (Qlt_le_dec rs2 (99#100));
      try rewrite A1 by assumption; try rewrite A2 by assumption;
      try rewrite B1 by assumption; try rewrite B2 by assumption;
      repeat split; intros; lra.
Qed.

(** ** Flow analysis short-circuit *)

Lemma polar_magnitudes (sqrt_f : Q -> Q) (arctan2_f : Q -> Q -> Q) (pi_f : Q)
    (l : list (Q * Q)) :
  map fst (map (fun '(x, y) => cart_to_polar sqrt_f arctan2_f pi_f x (- y)) l)
  = map (fun '(x, y) => sqrt_f (x * x + - y * - y)) l.
Proof.
  induction l as [|[x y] l IH]; simpl; [reflexivity|]. rewrite IH. reflexivity.
Qed.

Lemma pixel_magnitudes_eq (sqrt_f : Q -> Q) (arctan2_f : Q -> Q -> Q) (pi_f : Q)
    (flow : Flow) :
  pixel_magnitudes sqrt_f arctan2_f pi_f flow
  = map (fun '(x, y) => sqrt_f (x * x + - y * - y)) (List.concat flow).
Proof.
  unfold pixel_magnitudes. generalize (List.concat flow) as l.
  induction l as [|[x y] l IH]; [reflexivity|]. cbn [map]. rewrite IH. reflexivity.
Qed.

(** Below the threshold, [analyze_flow] returns the [NONE] summary built
    from the three means it computed before the test. *)
Lemma analyze_flow_short_circuit (sqrt_f : Q -> Q) (arctan2_f : Q -> Q -> Q)
    (sin_f cos_f log_f : Q -> Q) (pi_f : Q) (flow : Flow) (mt : Q) :
  mean (pixel_magnitudes sqrt_f arctan2_f pi_f flow) < mt ->
  analyze_flow sqrt_f arctan2_f sin_f cos_f log_f pi_f flow mt =
  {| magnitude := mean (map (fun '(x, y) => sqrt_f (x * x + - y * - y)) (List.concat flow));
     direction := NONE; angle_degrees := 0; angle_std := 0;
     is_divergent := false; is_rotational := false;
     dx_mean := mean (map fst (List.concat flow));
     dy_mean := mean (map snd (List.concat flow));
     raw_flow := flow |}.
Proof.
  rewrite pixel_magnitudes_eq. intros H.
  unfold analyze_flow. cbv zeta. rewrite polar_magnitudes.
  destruct (qlt_spec (mean (map (fun '(x, y) => sqrt_f (x * x + - y * - y))
                                 (List.concat flow))) mt) as [_|N];
    [reflexivity | contradiction].
Qed.

(** [C5] When the mean per-pixel magnitude is below [magnitude_threshold],
    [analyze_flow] returns direction [NONE], angle 0 and standard deviation
    0, and the result does not depend on the angular primitives
    ([arctan2], [sin], [cos], [log], [pi]) at all: no per-pixel angle, and
    no zoom, rotation or bucket evaluation, reaches it. *)
Theorem analyze_flow_none_below_threshold (sqrt_f : Q -> Q)
    (arctan2_1 arctan2_2 : Q -> Q -> Q) (sin_1 cos_1 log_1 sin_2 cos_2 log_2 : Q -> Q)
    (pi_1 pi_2 : Q) (flow : Flow) (mt : Q)
    (H : mean (pixel_magnitudes sqrt_f arctan2_1 pi_1 flow) < mt) :
  let m := analyze_flow sqrt_f arctan2_1 sin_1 cos_1 log_1 pi_1 flow mt in
  direction m = NONE /\ angle_degrees m = 0 /\ angle_std m = 0 /\
  m = analyze_flow sqrt_f arctan2_2 sin_2 cos_2 log_2 pi_2 flow mt.
Proof.
  intros m. subst m.
  assert (H2 : mean (pixel_magnitudes sqrt_f arctan2_2 pi_2 flow) < mt).
  { rewrite pixel_magnitudes_eq in *. exact H. }
  rewrite (analyze_flow_short_circuit _ _ _ _ _ _ _ _ H).
  rewrite (analyze_flow_short_circuit _ _ _ _ _ _ _ _ H2).
  repeat split.
Qed.

(** [C9] In the below-threshold short-circuit, [analyze_flow] forces only
    direction, angle, standard deviation and the zoom/rotation flags; the
    magnitude, [dx_mean] and [dy_mean] are the arithmetic means of the
    per-pixel magnitudes and flow components of the input field. *)
Theorem analyze_flow_short_circuit_means (sqrt_f : Q -> Q) (arctan2_f : Q -> Q -> Q)
    (sin_f cos_f log_f : Q -> Q) (pi_f : Q) (flow : Flow) (mt : Q)
    (H : mean (pixel_magnitudes sqrt_f arctan2_f pi_f flow) < mt) :
  let m := analyze_flow sqrt_f arctan2_f sin_f cos_f log_f pi_f flow mt in
  magnitude m = mean (pixel_magnitudes sqrt_f arctan2_f pi_f flow) /\
  dx_mean m = mean (map fst (List.concat flow)) /\
  dy_mean m = mean (map snd (List.concat flow)) /\
  direction m = NONE /\ angle_degrees m = 0 /\ angle_std m = 0 /\
  is_divergent m = false /\ is_rotational m = false.
Proof.
  intros m. subst m.
  rewrite (analyze_flow_short_circuit _ _ _ _ _ _ _ _ H).
  cbn [magnitude dx_mean dy_mean direction angle_degrees angle_std
       is_divergent is_rotational].
  rewrite pixel_magnitudes_eq. repeat split.
Qed.

(** ** The detection loop *)

Lemma deque_append_length {A : Type} (n : Z) (w : list A) (x : A) :
  (List.length (deque_append n w x) <= S (List.length w))%nat.
Proof.
  unfold deque_append. rewrite length_skipn, length_app. simpl. lia.
Qed.

Lemma spaced_snoc (minf : Z) (l : list CutEvent) (e : CutEvent) :
  spaced minf l ->
  (forall l' e', l = l' ++ [e'] -> (minf <= frame e - frame e')%Z) ->
  spaced minf (l ++ [e]).
Proof.
  intros Hs Hl l1 e1 e2 l2 E.
  destruct l2 as [|x l2'] using rev_ind.
  - replace (l1 ++ [e1; e2]) with ((l1 ++ [e1]) ++ [e2]) in E
      by (rewrite <- app_assoc; reflexivity).
    apply app_inj_tail in E as [E1 E2]. subst e2. apply (Hl l1 e1 E1).
  - replace (l1 ++ e1 :: e2 :: l2' ++ [x]) with ((l1 ++ e1 :: e2 :: l2') ++ [x]) in E
      by (rewrite <- app_assoc; reflexivity).
    apply app_inj_tail in E as [E1 _]. apply (Hs l1 e1 e2 l2' E1).
Qed.

Lemma py_int_lower (x : Q) : 0 <= x -> x - 1 < inject_Z (py_int x).
Proof.
  intros Hx. unfold py_int.
  assert (Hn : (0 <= Qnum x)%Z).
  { destruct x as [n d]. unfold Qle in Hx. simpl in *. lia. }
  rewrite Z.quot_div_nonneg by lia.
  assert (E : (Qnum x / Zpos (Qden x))%Z = Qfloor x) by (destruct x; reflexivity).
  rewrite E. pose proof (Qlt_floor x) as F. rewrite inject_Z_plus in F.
  assert (inject_Z 1 == 1) by reflexivity. lra.
Qed.


Section DetectTheorems.

Variable Frame : Type.
Variable cvt_gray : Frame -> Frame.
Variable compute_optical_flow : Frame -> Frame -> Flow.
Variable histogram_difference ssim_score : Frame -> Frame -> Q.
Variable sqrt_f : Q -> Q.
Variable arctan2_f : Q -> Q -> Q.
Variable sin_f cos_f log_f : Q -> Q.
Variable pi_f : Q.
Variable cd : CutDetector.

Abbreviation step' := (step Frame cvt_gray compute_optical_flow histogram_difference ssim_score
                    sqrt_f arctan2_f sin_f cos_f log_f pi_f cd).
Abbreviation detect_loop' := (detect_loop Frame cvt_gray compute_optical_flow
                    histogram_difference ssim_score sqrt_f arctan2_f sin_f cos_f log_f pi_f cd).
Abbreviation detect' := (detect Frame cvt_gray compute_optical_flow histogram_difference ssim_score
                    sqrt_f arctan2_f sin_f cos_f log_f pi_f cd).
Abbreviation evaluate_candidate' := (evaluate_candidate Frame histogram_difference ssim_score
                    arctan2_f sin_f cos_f pi_f cd).
Abbreviation motion_candidate' := (motion_candidate arctan2_f sin_f cos_f pi_f cd).

(** What [step] does, by branch. *)
Lemma step_cases (fps : Q) (minf : Z) (st : DetectState Frame) (curr : Frame)
    (c : list (option Frame)) (fn : Z) :
  let st' := step' fps minf st curr c fn in
  (cut_points _ st' = cut_points _ st /\ last_cut_frame _ st' = last_cut_frame _ st /\
   (List.length (angle_window _ st') <= S (List.length (angle_window _ st)))%nat /\
   (List.length (magnitude_window _ st') <= S (List.length (magnitude_window _ st)))%nat /\
   (List.length (direction_window _ st') <= S (List.length (direction_window _ st)))%nat)
  \/
  (exists ev cand,
     cut_points _ st' = cut_points _ st ++ [ev] /\
     angle_window _ st' = [] /\ magnitude_window _ st' = [] /\ direction_window _ st' = [] /\
     frame ev = (fn + 1)%Z /\ last_cut_frame _ st' = frame ev /\
     timestamp ev = inject_Z (frame ev) / fps /\
     (minf <= frame ev - last_cut_frame _ st)%Z /\
     truthy (fst cand) = true /\ Some (cut_type ev) = fst cand /\
     cand = evaluate_candidate'
              (deque_append (window_size cd) (angle_window _ st) (angle_degrees (analyze_flow
                 sqrt_f arctan2_f sin_f cos_f log_f pi_f
                 (compute_optical_flow (prev_gray _ st) (cvt_gray curr)) (magnitude_threshold cd))))
              (deque_append (window_size cd) (magnitude_window _ st) (magnitude (analyze_flow
                 sqrt_f arctan2_f sin_f cos_f log_f pi_f
                 (compute_optical_flow (prev_gray _ st) (cvt_gray curr)) (magnitude_threshold cd))))
              (deque_append (window_size cd) (direction_window _ st) (direction (analyze_flow
                 sqrt_f arctan2_f sin_f cos_f log_f pi_f
                 (compute_optical_flow (prev_gray _ st) (cvt_gray curr)) (magnitude_threshold cd))))
              (prev_frame _ st) curr).
Proof.
  intros st'. subst st'. unfold step. cbv zeta.
  set (mo := analyze_flow sqrt_f arctan2_f sin_f cos_f log_f pi_f
               (compute_optical_flow (prev_gray Frame st) (cvt_gray curr)) (magnitude_threshold cd)).
  destruct (Z.ltb_spec (fn + 1 - last_cut_frame Frame st) minf) as [L|L].
  - left. cbn. repeat split; apply deque_append_length.
  - destruct (evaluate_candidate' _ _ _ (prev_frame Frame st) curr) as [cr conf] eqn:Ec.
    destruct (truthy cr) eqn:Et.
    + right. eexists. exists (cr, conf). split; [reflexivity|]. cbn.
      repeat split; try reflexivity; try lia; try exact Et; try (symmetry; exact Ec);
        destruct cr; [reflexivity|discriminate].
    + left. cbn. repeat split; apply deque_append_length.
Qed.

Lemma step_invariant (fps : Q) (minf : Z) (st : DetectState Frame) (curr : Frame)
    (c : list (option Frame)) (fn : Z) :
  cut_invariant fps minf st -> cut_invariant fps minf (step' fps minf st curr c fn).
Proof.
  intros [Hs [Hl Ht]].
  destruct (step_cases fps minf st curr c fn)
    as [[E1 [E2 _]] | (ev & cand & E1 & _ & _ & _ & Hf & Hlc & Hts & Hm & _)].
  - unfold cut_invariant. rewrite E1, E2. auto.
  - unfold cut_invariant. rewrite E1, Hlc. repeat split.
    + apply spaced_snoc; [exact Hs|]. intros l' e' E. rewrite (Hl l' e' E). exact Hm.
    + intros l e E. apply app_inj_tail in E as [_ ->]. reflexivity.
    + apply Forall_app. split; [exact Ht|]. constructor; [exact Hts|constructor].
Qed.

Lemma detect_loop_invariant (stop_flag : nat -> bool) (fps : Q) (minf : Z) (fuel iter : nat)
    (st : DetectState Frame) :
  cut_invariant fps minf st -> cut_invariant fps minf (detect_loop' stop_flag fps minf fuel iter st).
Proof.
  revert iter st. induction fuel as [|fuel IH]; intros iter st H; simpl; [exact H|].
  destruct (stop_flag iter); [exact H|].
  destruct (skip_frames Frame (Z.to_nat (frame_skip cd)) (cap Frame st) (frame_number Frame st))
    as [c1 fn1].
  destruct (cap_read Frame c1) as [[curr|] c2]; [|exact H].
  apply IH, step_invariant, H.
Qed.

Lemma effective_fps_pos (src : VideoSource Frame) :
  0 <= cap_fps Frame src -> 0 < effective_fps Frame src.
Proof.
  intros H. unfold effective_fps.
  destruct (Qeq_bool (cap_fps Frame src) 0) eqn:E; [reflexivity|].
  apply Qeq_bool_neq in E. destruct (Qle_lt_or_eq _ _ H) as [L|L]; [exact L|].
  exfalso. apply E. symmetry. exact L.
Qed.

Lemma detect_ok_invariant (src : VideoSource Frame) (stop_flag : nat -> bool)
    (cuts : list CutEvent) :
  detect' src stop_flag = Ok cuts ->
  cuts = [] \/
  exists st, cuts = cut_points Frame st /\
    cut_invariant (effective_fps Frame src)
      (min_frames_between_cuts cd (effective_fps Frame src)) st.
Proof.
  unfold detect. destruct (negb (opened Frame src)); [discriminate|].
  destruct (Z.ltb (window_size cd) 0); [discriminate|].
  destruct (cap_read Frame (reads Frame src)) as [[prev|] c1].
  - intros E. right.
    match type of E with Ok (cut_points _ ?st) = _ => exists st end.
    split; [congruence|].
    apply detect_loop_invariant. repeat split.
    + intros l1 e1 e2 l2 E'. destruct l1; discriminate.
    + intros l e E'. destruct l; discriminate.
    + constructor.
  - intros E. injection E as <-. left. reflexivity.
Qed.

Lemma ts_diff_lower (fps : Q) (m f1 f2 : Z) :
  0 < fps -> (m <= f2 - f1)%Z ->
  inject_Z m / fps <= inject_Z f2 / fps - inject_Z f1 / fps.
Proof.
  intros Hf Hm.
  assert (A : inject_Z m + inject_Z f1 <= inject_Z f2).
  { rewrite <- inject_Z_plus, <- Zle_Qle. lia. }
  assert (E : inject_Z f2 / fps - inject_Z f1 / fps == (inject_Z f2 - inject_Z f1) / fps)
    by (field; lra).
  rewrite E. unfold Qdiv. apply Qmult_le_compat_r; [lra|].
  apply Qinv_le_0_compat. lra.
Qed.

(** [C1] (amended) Two consecutive cuts of a run are at least
    [min_frames_between_cuts = int(min_segment_duration * fps)] frames
    apart, so their timestamps differ by at least that many frame periods;
    because [int] truncates, this bound can fall short of
    [min_segment_duration] by less than one frame period [1/fps]. *)
Theorem detect_consecutive_cuts (src : VideoSource Frame) (stop_flag : nat -> bool)
    (cuts : list CutEvent) (Hfps : 0 <= cap_fps Frame src)
    (H : detect' src stop_flag = Ok cuts) :
  let fps := effective_fps Frame src in
  let minf := min_frames_between_cuts cd fps in
  forall l1 e1 e2 l2, cuts = l1 ++ e1 :: e2 :: l2 ->
    (minf <= frame e2 - frame e1)%Z /\
    inject_Z minf / fps <= timestamp e2 - timestamp e1 /\
    (0 <= min_segment_duration cd -> min_segment_duration cd - 1 / fps < inject_Z minf / fps).
Proof.
  intros fps minf l1 e1 e2 l2 E.
  pose proof (effective_fps_pos src Hfps) as Hpos. fold fps in Hpos.
  destruct (detect_ok_invariant src stop_flag cuts H) as [->|[st [-> [Hs [_ Ht]]]]].
  { destruct l1; discriminate. }
  fold fps minf in Hs, Ht.
  assert (Hsp := Hs l1 e1 e2 l2 E).
  rewrite Forall_forall in Ht.
  assert (T1 := Ht e1 ltac:(rewrite E; apply in_or_app; right; left; reflexivity)).
  assert (T2 := Ht e2 ltac:(rewrite E; apply in_or_app; right; right; left; reflexivity)).
  split; [exact Hsp|]. split.
  - rewrite T1, T2. apply ts_diff_lower; assumption.
  - intros Hd. apply Qlt_shift_div_l; [exact Hpos|].
    assert (P : 0 <= min_segment_duration cd * fps)
      by (apply Qmult_le_0_compat; lra).
    pose proof (py_int_lower _ P) as L.
    unfold minf, min_frames_between_cuts.
    assert (E2 : (min_segment_duration cd - 1 / fps) * fps
                 == min_segment_duration cd * fps - 1) by (field; lra).
    rewrite E2. exact L.
Qed.

Lemma evaluate_candidate_motion_full (aw mw : list Q) (dw : list MovementDirection)
    (prev curr : Frame) :
  let r := evaluate_candidate' aw mw dw prev curr in
  truthy (fst r) = true -> fst r <> Some "corte_de_cena"%string ->
  (window_size cd <= Z.of_nat (List.length mw))%Z.
Proof.
  intros r. subst r. unfold evaluate_candidate, motion_candidate.
  destruct (Z.leb_spec (window_size cd) (Z.of_nat (List.length mw))) as [L|L];
    intros; [exact L|].
  exfalso.
  destruct (is_scene_cut Frame histogram_difference ssim_score prev curr
              (histogram_threshold cd) (ssim_threshold cd)) as [sc sconf].
  destruct (sc && qlt 0 sconf); simpl in *; congruence.
Qed.

(** [C4] The scene cut replaces the motion candidate exactly when
    [is_scene_cut] reports a cut whose confidence strictly exceeds the
    candidate's; on equal confidences the motion candidate is kept. *)
Theorem evaluate_candidate_scene_override (aw mw : list Q) (dw : list MovementDirection)
    (prev curr : Frame) :
  let m := motion_candidate' aw mw dw in
  let s := is_scene_cut Frame histogram_difference ssim_score prev curr
             (histogram_threshold cd) (ssim_threshold cd) in
  let r := evaluate_candidate' aw mw dw prev curr in
  ((fst s = true /\ snd m < snd s) /\ r = (Some "corte_de_cena"%string, snd s) \/
   ~ (fst s = true /\ snd m < snd s) /\ r = m) /\
  (snd s == snd m -> r = m).
Proof.
  intros m s r. subst m s r. unfold evaluate_candidate.
  destruct (motion_candidate arctan2_f sin_f cos_f pi_f cd aw mw dw) as [mr mc].
  destruct (is_scene_cut Frame histogram_difference ssim_score prev curr
              (histogram_threshold cd) (ssim_threshold cd)) as [sc sconf].
  cbn [fst snd].
  destruct sc; destruct (qlt_spec mc sconf) as [L|L]; cbn [andb].
  - split; [left; auto|]. intros Eq. exfalso. lra.
  - split; [right; split; [intros [_ L']; contradiction|reflexivity]|]. reflexivity.
  - split; [right; split; [intros [D _]; discriminate|reflexivity]|]. reflexivity.
  - split; [right; split; [intros [D _]; discriminate|reflexivity]|]. reflexivity.
Qed.


End DetectTheorems.

(** ** The motion-change window *)

Lemma direction_eqb_true (a b : MovementDirection) : direction_eqb a b = true <-> a = b.
Proof.
  unfold direction_eqb. destruct (MovementDirection_eq_dec a b); split; congruence.
Qed.

Lemma Forall2_firstn_skipn {A B : Type} (P : A -> B -> Prop) (n : nat) (l1 : list A) (l2 : list B) :
  Forall2 P l1 l2 -> Forall2 P (firstn n l1) (firstn n l2) /\ Forall2 P (skipn n l1) (skipn n l2).
Proof.
  revert l1 l2. induction n as [|n IH]; intros l1 l2 H; [simpl; split; [constructor|exact H]|].
  destruct H as [|x y l1 l2 Hxy H]; [simpl; split; constructor|].
  destruct (IH l1 l2 H) as [A1 A2]. simpl. split; [constructor; assumption|exact A2].
Qed.

Lemma Forall2_In_l {A B : Type} (P : A -> B -> Prop) (l1 : list A) (l2 : list B) (x : A) :
  Forall2 P l1 l2 -> In x l1 -> exists y, In y l2 /\ P x y.
Proof.
  induction 1 as [|a b l1 l2 Hab H IH]; [intros []|].
  intros [<-|Hin]; [exists b; split; [left; reflexivity|exact Hab]|].
  destruct (IH Hin) as [y [Hy Py]]. exists y. split; [right; exact Hy|exact Py].
Qed.

Lemma sum_lt (t : Q) (l : list Q) :
  l <> [] -> (forall x, In x l -> x < t) ->
  fold_right Qplus 0 l < inject_Z (Z.of_nat (List.length l)) * t.
Proof.
  induction l as [|x l IH]; intros Hne Hl; [contradiction|].
  assert (Hx : x < t) by (apply Hl; left; reflexivity).
  cbn [fold_right List.length]. rewrite Nat2Z.inj_succ, <- Z.add_1_r, inject_Z_plus.
  assert (E1 : inject_Z 1 == 1) by reflexivity. rewrite E1.
  destruct l as [|y l'].
  - cbn. assert (E0 : inject_Z 0 == 0) by reflexivity. rewrite E0. lra.
  - assert (IH' := IH ltac:(discriminate) (fun z Hz => Hl z (or_intror Hz))).
    set (S := fold_right Qplus 0 (y :: l')) in *.
    set (n := inject_Z (Z.of_nat (List.length (y :: l')))) in *.
    assert (E : (n + 1) * t == n * t + t) by ring. rewrite E. lra.
Qed.

Lemma np_mean_exists_ge (t f : Q) (l : list Q) :
  np_mean l = Some f -> t <= f -> exists x, In x l /\ t <= x.
Proof.
  intros Hm Hf.
  assert (D : (exists x, In x l /\ t <= x) \/ (forall x, In x l -> x < t)).
  { clear Hm Hf. induction l as [|y l IH]; [right; intros x []|].
    destruct (Qlt_le_dec y t) as [Ly|Ly].
    - destruct IH as [[x [Hx Lx]]|IH].
      + left. exists x. split; [right; exact Hx|exact Lx].
      + right. intros x [<-|Hx]; [exact Ly|exact (IH x Hx)].
    - left. exists y. split; [left; reflexivity|exact Ly]. }
  destruct D as [D|D]; [exact D|exfalso].
  destruct l as [|y l']; [discriminate|].
  unfold np_mean in Hm. injection Hm as <-.
  assert (Hn : 0 < inject_Z (Z.of_nat (List.length (y :: l')))).
  { change 0 with (inject_Z 0). rewrite <- Zlt_Qlt. simpl. lia. }
  assert (Hs := sum_lt t (y :: l') ltac:(discriminate) D).
  assert (Hlt : fold_right Qplus 0 (y :: l') / inject_Z (Z.of_nat (List.length (y :: l'))) < t).
  { apply Qlt_shift_div_r; [exact Hn|]. rewrite Qmult_comm. exact Hs. }
  change (t <= fold_right Qplus 0 (y :: l') / inject_Z (Z.of_nat (List.length (y :: l'))))
    in Hf.
  lra.
Qed.

Lemma max_by_count_in (cands l : list MovementDirection) :
  cands <> [] -> In (max_by_count cands l) cands.
Proof.
  destruct cands as [|c cs]; [contradiction|intros _]. simpl.
  assert (G : forall acc, In acc (c :: cs) -> forall rest, incl rest (c :: cs) ->
    In (fold_left (fun best d => if Nat.ltb (count_dir best l) (count_dir d l) then d else best)
                  rest acc) (c :: cs)).
  { intros acc Hacc rest. revert acc Hacc. induction rest as [|d rest IH]; intros acc Hacc Hr;
      [exact Hacc|].
    simpl. apply IH; [|intros z Hz; apply Hr; right; exact Hz].
    destruct (Nat.ltb _ _); [apply Hr; left; reflexivity|exact Hacc]. }
  apply G; [left; reflexivity|intros z Hz; right; exact Hz].
Qed.

Lemma dominant_direction_not_none (l : list MovementDirection) (d : MovementDirection) :
  In d l -> d <> NONE -> dominant_direction l <> NONE.
Proof.
  intros Hd Hn. unfold dominant_direction.
  assert (Hf : In d (filter (fun d => negb (direction_eqb d NONE)) l)).
  { apply filter_In. split; [exact Hd|].
    destruct (direction_eqb d NONE) eqn:E; [apply direction_eqb_true in E; contradiction|reflexivity]. }
  set (fl := filter (fun d => negb (direction_eqb d NONE)) l) in *.
  assert (Hc : In d (filter (fun x => existsb (direction_eqb x) fl) all_directions)).
  { apply filter_In. split; [destruct d; simpl; tauto|].
    apply existsb_exists. exists d. split; [exact Hf|apply direction_eqb_true; reflexivity]. }
  assert (Hr := max_by_count_in (filter (fun x => existsb (direction_eqb x) fl) all_directions) fl
                  ltac:(intros E; rewrite E in Hc; exact Hc)).
  apply filter_In in Hr as [_ Hr]. apply existsb_exists in Hr as [y [Hy Ey]].
  apply direction_eqb_true in Ey.
  destruct fl as [|z zs] eqn:Efl; [contradiction|].
  rewrite <- Efl in *. rewrite Ey.
  unfold fl in Hy. apply filter_In in Hy as [_ Hy].
  intros En. rewrite En in Hy. discriminate.
Qed.

(** A half-window whose mean magnitude reaches the threshold has a
    dominant direction other than [NONE]. *)
Lemma half_dominant_not_none (mt f : Q) (ms : list Q) (ds : list MovementDirection) :
  Forall2 (fun m d => d = NONE <-> m < mt) ms ds ->
  np_mean ms = Some f -> mt <= f -> dominant_direction ds <> NONE.
Proof.
  intros H Hm Hf.
  destruct (np_mean_exists_ge mt f ms Hm Hf) as [x [Hx Lx]].
  destruct (Forall2_In_l _ _ _ x H Hx) as [y [Hy Py]].
  apply (dominant_direction_not_none ds y Hy). intros E. apply Py in E. lra.
Qed.

(** [C10] If [magnitude_threshold >= 0] and every window sample has
    direction [NONE] exactly when its magnitude is below the threshold
    (as [analyze_flow] produces them), every change that
    [_detect_motion_change] reports names dominant directions other than
    [NONE]: its type never embeds ["parado"]. *)
Theorem detect_motion_change_no_parado (arctan2_f : Q -> Q -> Q) (sin_f cos_f : Q -> Q)
    (pi_f : Q) (cd : CutDetector) (angles mags : list Q) (dirs : list MovementDirection)
    (Hmt : 0 <= magnitude_threshold cd)
    (Hfm : Forall2 (fun m d => d = NONE <-> m < magnitude_threshold cd) mags dirs) :
  let c := detect_motion_change arctan2_f sin_f cos_f pi_f cd angles mags dirs in
  changed c = true ->
  (exists d, d <> NONE /\ change_type c = Some ("parada_" ++ value d)%string) \/
  (exists d, d <> NONE /\ change_type c = Some ("inicio_" ++ value d)%string) \/
  (exists d1 d2, d1 <> NONE /\ d2 <> NONE /\
     change_type c = Some ("mudança_" ++ value d1 ++ "_para_" ++ value d2)%string).
Proof.
  intros c. subst c. unfold detect_motion_change. cbv zeta.
  set (half := (List.length angles / 2)%nat).
  set (mt := magnitude_threshold cd) in *.
  destruct (Forall2_firstn_skipn _ half _ _ Hfm) as [F1 F2].
  destruct (np_mean (firstn half mags)) as [f|] eqn:Ef; [|discriminate].
  destruct (np_mean (skipn half mags)) as [s|] eqn:Es; [|discriminate].
  destruct (qlt_spec (mt * (3#2)) f); destruct (qlt_spec s (mt * stop_threshold cd));
    cbn [andb].
  { intros _. left. eexists. split; [|reflexivity].
    apply (half_dominant_not_none mt f _ _ F1 Ef). lra. }
  all: destruct (qlt_spec f (mt * stop_threshold cd)); destruct (qlt_spec (mt * (3#2)) s);
    cbn [andb].
  all: try (intros _; right; left; eexists; split; [|reflexivity];
            apply (half_dominant_not_none mt s _ _ F2 Es); lra).
  all: destruct (qlt_spec mt f); destruct (qlt_spec mt s); cbn [andb];
    try (intros H; discriminate H).
  all: destruct (circular_mean arctan2_f sin_f cos_f pi_f (firstn half angles));
    destruct (circular_mean arctan2_f sin_f cos_f pi_f (skipn half angles));
    try (intros H; discriminate H).
  all: destruct (qle _ _); try (intros H; discriminate H).
  all: intros _; right; right; do 2 eexists; split; [|split; [|reflexivity]].
  all: first [apply (half_dominant_not_none mt f _ _ F1 Ef); lra
             |apply (half_dominant_not_none mt s _ _ F2 Es); lra].
Qed.

(** ** Concrete runs of the detector *)

Module SampleRuns.

Import Sample.

(** Decides a closed comparison of rationals by evaluation. *)
Ltac qdecide := vm_compute; first [reflexivity | discriminate | intro; discriminate].

(** [C2] On a frame pair with histogram difference 0.4, SSIM 0.9 and the
    thresholds 0.2 and 0.7, only the histogram test passes and
    [is_scene_cut] reports confidence [0.4 / 0.2 * 0.7 = 1.4], above 1; a
    run of [detect] on a still picture emits this confidence in its cut
    events. *)
Theorem is_scene_cut_hist_only_above_one :
  is_scene_cut Frame hist_04 ssim_09 0%nat 1%nat (1#5) (7#10) = (true, 70#50) /\
  1 < 70#50 /\
  match run (detector 0 4 (3#2)) (source 3 (frames 10)) with
  | Ok (e :: _) => 1 < confidence e
  | _ => False
  end.
Proof.
  split; [vm_compute; reflexivity|]. split; [qdecide|]. qdecide.
Qed.

(** [C3] [detect] does not wait for the windows to refill before a scene
    cut, while its copy [detect_with_signal] in the GUI worker does.  With
    [window_size = 4], no frame skip and one frame per second: the first
    iteration of [detect]'s loop emits a cut at frame 2, which becomes
    [last_cut_frame] and empties the three windows; the second iteration
    appends one sample and already emits the next cut, at frame 3.  On five
    frames [detect] cuts at frames 2, 3, 4 and 5; [detect_with_signal] only
    at frame 5, once four samples have accumulated, and at frames 5 and 9
    on twelve frames. *)
Theorem detect_scene_cut_before_window_full :
  let cd := detector 0 4 1 in
  let st0 := Build_DetectState Frame [] 0 [] [] [] 0%nat 0%nat 1 (tl (frames 5)) in
  let loop k := detect_loop Frame cvt_gray still_flow hist_04 ssim_09 sqrt_q arctan2_q
                  sin_q cos_q log_q pi_q cd (fun _ => false) 1
                  (min_frames_between_cuts cd 1) k 0 st0 in
  frame_skip cd = 0%Z /\ window_size cd = 4%Z /\
  cut_points Frame (loop 1%nat) = [cut_at 2 2] /\
  last_cut_frame Frame (loop 1%nat) = frame (cut_at 2 2) /\
  angle_window Frame (loop 1%nat) = [] /\ magnitude_window Frame (loop 1%nat) = [] /\
  direction_window Frame (loop 1%nat) = [] /\
  cut_points Frame (loop 2%nat) = [cut_at 2 2; cut_at 3 3] /\
  (frame (cut_at 3 3) - last_cut_frame Frame (loop 1%nat) < min_frames_between_cuts cd 1
     + window_size cd)%Z /\
  run cd (source 1 (frames 5)) = Ok [cut_at 2 2; cut_at 3 3; cut_at 4 4; cut_at 5 5] /\
  worker_run cd (source 1 (frames 5)) = Ok [cut_at 5 5] /\
  worker_run cd (source 1 (frames 12)) = Ok [cut_at 5 5; cut_at 9 9].
Proof.
  intros cd st0 loop.
  repeat (apply conj); vm_compute; reflexivity.
Qed.

(** [C1] counterexample: at 3 frames per second and
    [min_segment_duration = 1.5], [int(1.5 * 3) = 4] and two cuts 4 frames
    apart are emitted: their timestamps [4/3] and [8/3] are only [4/3 < 1.5]
    seconds apart. *)
Lemma detect_consecutive_cuts_counterexample :
  run (detector 0 4 (3#2)) (source 3 (frames 10)) = Ok [cut_at 4 (4#3); cut_at 8 (8#3)] /\
  timestamp (cut_at 8 (8#3)) - timestamp (cut_at 4 (4#3)) <
    min_segment_duration (detector 0 4 (3#2)).
Proof. split; qdecide. Qed.

(** [C1] witness: the same run, two consecutive cuts 4 frames apart. *)
Lemma detect_consecutive_cuts_witness :
  let cd := detector 0 4 (3#2) in
  let src := source 3 (frames 10) in
  let fps := effective_fps Frame src in
  let minf := min_frames_between_cuts cd fps in
  0 <= cap_fps Frame src /\
  run cd src = Ok [cut_at 4 (4#3); cut_at 8 (8#3)] /\
  (minf <= frame (cut_at 8 (8#3)) - frame (cut_at 4 (4#3)))%Z /\
  inject_Z minf / fps <= timestamp (cut_at 8 (8#3)) - timestamp (cut_at 4 (4#3)) /\
  (0 <= min_segment_duration cd -> min_segment_duration cd - 1 / fps < inject_Z minf / fps).
Proof.
  intros cd src fps minf.
  assert (Hfps : 0 <= cap_fps Frame src) by qdecide.
  assert (Hrun : run cd src = Ok [cut_at 4 (4#3); cut_at 8 (8#3)]) by qdecide.
  split; [exact Hfps|]. split; [exact Hrun|].
  exact (detect_consecutive_cuts Frame cvt_gray still_flow hist_04 ssim_09 sqrt_q arctan2_q
           sin_q cos_q log_q pi_q cd src (fun _ => false) _ Hfps Hrun
           [] (cut_at 4 (4#3)) (cut_at 8 (8#3)) [] eq_refl).
Defined.

(** [C5] witness: a flow field of mean magnitude 0.1 below the threshold 1
    gives [NONE], angle 0 and deviation 0, and the same result with
    constant angular primitives. *)
Lemma analyze_flow_none_below_threshold_witness :
  mean (pixel_magnitudes sqrt_q arctan2_q pi_q small_flow) < 1 /\
  let m := analyze_flow sqrt_q arctan2_q sin_q cos_q log_q pi_q small_flow 1 in
  direction m = NONE /\ angle_degrees m = 0 /\ angle_std m = 0 /\
  m = analyze_flow sqrt_q (fun _ _ => 0) (fun _ => 0) (fun _ => 0) (fun _ => 0) 3 small_flow 1.
Proof.
  assert (H : mean (pixel_magnitudes sqrt_q arctan2_q pi_q small_flow) < 1) by qdecide.
  split; [exact H|].
  exact (analyze_flow_none_below_threshold sqrt_q arctan2_q (fun _ _ => 0)
           sin_q cos_q log_q (fun _ => 0) (fun _ => 0) (fun _ => 0) pi_q 3 small_flow 1 H).
Defined.

(** [C6] witness: the angle 45 lies in the sector of [UP_RIGHT]. *)
Lemma angle_to_direction_8_sectors_witness :
  0 <= 45 /\ 45 < 360 /\
  angle_to_direction_8 45 <> MIXED /\
  (forall d, In d compass8 -> (angle_to_direction_8 45 = d <-> in_sector d 45 = true)).
Proof.
  assert (H0 : 0 <= 45) by qdecide. assert (H1 : 45 < 360) by qdecide.
  split; [exact H0|]. split; [exact H1|].
  exact (angle_to_direction_8_sectors 45 H0 H1).
Defined.



(** [C8] witness: sensitivities 0.5 and 1 on [config 0 4 1]; at 0.5 the
    magnitude threshold is 2, twice the raw value 1. *)
Lemma CutDetector_init_sensitivity_witness :
  0 < 1#2 /\ 1#2 < 1 /\
  exists cd1 cd2,
    CutDetector_init (with_sensitivity (config 0 4 1) (1#2)) = Some cd1 /\
    CutDetector_init (with_sensitivity (config 0 4 1) 1) = Some cd2 /\
    magnitude_threshold cd1 == 2 * 1 /\
    magnitude_threshold cd2 < magnitude_threshold cd1.
Proof.
  assert (H1 : 0 < 1#2) by qdecide. assert (H12 : 1#2 < 1) by qdecide.
  split; [exact H1|]. split; [exact H12|].
  destruct (CutDetector_init_sensitivity (config 0 4 1) (1#2) 1 H1 H12)
    as (cd1 & cd2 & E1 & E2 & _ & _ & _ & _ & _ & Hhalf & Hmag & _).
  exists cd1, cd2. split; [exact E1|]. split; [exact E2|]. split.
  - exact (Hhalf (Qeq_refl _)).
  - apply Hmag. qdecide.
Defined.

(** [C9] witness: on the slow flow field the short-circuit keeps the mean
    magnitude 0.1 and the mean components 0. *)
Lemma analyze_flow_short_circuit_means_witness :
  mean (pixel_magnitudes sqrt_q arctan2_q pi_q small_flow) < 1 /\
  let m := analyze_flow sqrt_q arctan2_q sin_q cos_q log_q pi_q small_flow 1 in
  magnitude m = mean (pixel_magnitudes sqrt_q arctan2_q pi_q small_flow) /\
  dx_mean m = mean (map fst (List.concat small_flow)) /\
  dy_mean m = mean (map snd (List.concat small_flow)) /\
  direction m = NONE /\ angle_degrees m = 0 /\ angle_std m = 0 /\
  is_divergent m = false /\ is_rotational m = false.
Proof.
  assert (H : mean (pixel_magnitudes sqrt_q arctan2_q pi_q small_flow) < 1) by qdecide.
  split; [exact H|].
  exact (analyze_flow_short_circuit_means sqrt_q arctan2_q sin_q cos_q log_q pi_q
           small_flow 1 H).
Defined.

(** [C10] witness: magnitudes [2; 2; 0; 0] moving right then standing
    still; the stop rule fires and names the first half's direction. *)
Lemma detect_motion_change_no_parado_witness :
  let c := detect_motion_change arctan2_q sin_q cos_q pi_q motion_detector
             [0; 0; 0; 0] [2; 2; 0; 0] [RIGHT; RIGHT; NONE; NONE] in
  0 <= magnitude_threshold motion_detector /\
  Forall2 (fun m d => d = NONE <-> m < magnitude_threshold motion_detector)
    [2; 2; 0; 0] [RIGHT; RIGHT; NONE; NONE] /\
  changed c = true /\
  ((exists d, d <> NONE /\ change_type c = Some ("parada_" ++ value d)%string) \/
   (exists d, d <> NONE /\ change_type c = Some ("inicio_" ++ value d)%string) \/
   (exists d1 d2, d1 <> NONE /\ d2 <> NONE /\
      change_type c = Some ("mudança_" ++ value d1 ++ "_para_" ++ value d2)%string)).
Proof.
  intros c.
  assert (Hmt : 0 <= magnitude_threshold motion_detector) by qdecide.
  assert (Hfm : Forall2 (fun m d => d = NONE <-> m < magnitude_threshold motion_detector)
                  [2; 2; 0; 0] [RIGHT; RIGHT; NONE; NONE]).
  { cbn [magnitude_threshold motion_detector].
    repeat constructor; first [intro E; discriminate E | intro E; exfalso; lra | lra]. }
  assert (Hc : changed c = true) by qdecide.
  split; [exact Hmt|]. split; [exact Hfm|]. split; [exact Hc|].
  exact (detect_motion_change_no_parado arctan2_q sin_q cos_q pi_q motion_detector
           [0; 0; 0; 0] [2; 2; 0; 0] [RIGHT; RIGHT; NONE; NONE] Hmt Hfm Hc).
Defined.

End SampleRuns.

(** * Further properties of the analyzer *)

(** ** Float helpers *)

Lemma pymod_bounds (x m : Q) : 0 < m -> 0 <= pymod x m /\ pymod x m < m.
Proof.
  intros Hm. unfold pymod.
  pose proof (Qfloor_le (x / m)) as A. pose proof (Qlt_floor (x / m)) as B.
  rewrite inject_Z_plus in B. assert (I1 : inject_Z 1 == 1) by reflexivity.
  set (f := inject_Z (Qfloor (x / m))) in *.
  assert (E : x - m * f == m * (x / m - f)) by (field; intro; lra).
  rewrite E. set (t := x / m - f).
  assert (T0 : 0 <= t) by (unfold t; lra). assert (T1 : t < 1) by (unfold t; lra).
  split.
  - apply Qmult_le_0_compat; lra.
  - assert (L : m * t < m * 1) by (apply Qmult_lt_l; assumption). lra.
Qed.

Lemma Qdiv_pos (a b : Q) : 0 < a -> 0 < b -> 0 < a / b.
Proof.
  intros Ha Hb. unfold Qdiv. apply Qmult_lt_0_compat; [exact Ha|].
  apply Qinv_lt_0_compat. exact Hb.
Qed.

Lemma Qdiv_nonneg (a b : Q) : 0 <= a -> 0 < b -> 0 <= a / b.
Proof.
  intros Ha Hb. unfold Qdiv. apply Qmult_le_0_compat; [exact Ha|].
  apply Qlt_le_weak. apply Qinv_lt_0_compat. exact Hb.
Qed.

Lemma Qopp_mult_opp (y : Q) : - y * - y = y * y.
Proof.
  destruct y as [n d]. unfold Qmult, Qopp. cbn [Qnum Qden].
  rewrite Z.mul_opp_opp. reflexivity.
Qed.

Lemma Qabs_minus_sym (a b : Q) : Qabs (a - b) = Qabs (b - a).
Proof.
  destruct a as [an ad], b as [bn bd].
  unfold Qminus, Qplus, Qopp, Qabs. cbn [Qnum Qden].
  rewrite (Pos.mul_comm ad bd). f_equal.
  rewrite <- Z.abs_opp. f_equal. ring.
Qed.

(** ** Bucketing and angular distance *)

(** Splits a conjunction or disjunction hypothesis in place. *)
Ltac split_hyp H :=
  match type of H with
  | _ /\ _ => let H' := fresh H in destruct H as [H H']
  | _ \/ _ => destruct H as [H|H]
  | _ => idtac
  end.

Lemma angle_to_direction_8_total (a : Q) :
  angle_to_direction_8 a <> MIXED /\ angle_to_direction_8 a <> NONE.
Proof.
  unfold angle_to_direction_8.
  destruct (pymod_bounds a 360) as [H0 H1]; [reflexivity|].
  remember (pymod a 360) as b eqn:Eb. clear Eb.
  repeat if_step; split; discriminate.
Qed.

(** [angle_difference] is symmetric, lies in [0, 180] and is 0 on equal
    angles. *)
Theorem angle_difference_range (a1 a2 : Q) :
  angle_difference a1 a2 = angle_difference a2 a1 /\
  0 <= angle_difference a1 a2 /\ angle_difference a1 a2 <= 180 /\
  angle_difference a1 a1 == 0.
Proof.
  unfold angle_difference. rewrite (Qabs_minus_sym a2 a1).
  split; [reflexivity|].
  destruct (pymod_bounds (Qabs (a1 - a2)) 360) as [L U]; [reflexivity|].
  destruct (py_min_spec (pymod (Qabs (a1 - a2)) 360) (360 - pymod (Qabs (a1 - a2)) 360))
    as [P1 P2].
  split; [|split].
  - destruct (Qlt_le_dec (360 - pymod (Qabs (a1 - a2)) 360) (pymod (Qabs (a1 - a2)) 360)) as [C|C];
      [rewrite (P1 C) | rewrite (P2 C)]; lra.
  - destruct (Qlt_le_dec (360 - pymod (Qabs (a1 - a2)) 360) (pymod (Qabs (a1 - a2)) 360)) as [C|C];
      [rewrite (P1 C) | rewrite (P2 C)]; lra.
  - assert (Z0 : Qabs (a1 - a1) == 0) by (rewrite Qabs_pos; lra).
    assert (Hp : pymod (Qabs (a1 - a1)) 360 == 0).
    { rewrite (pymod_in_range (Qabs (a1 - a1))); [exact Z0| |]; rewrite Z0; lra. }
    destruct (py_min_spec (pymod (Qabs (a1 - a1)) 360) (360 - pymod (Qabs (a1 - a1)) 360))
      as [_ Q2].
    rewrite Q2; [exact Hp|]. lra.
Qed.

(** ** The flow summary *)

Lemma combine_seq_snd {A : Type} (k : nat) (l : list A) :
  map snd (combine (seq k (List.length l)) l) = l.
Proof.
  revert k. induction l as [|x l IH]; intros k; [reflexivity|].
  cbn [List.length seq combine map snd]. rewrite IH. reflexivity.
Qed.

(** [np.mgrid] enumerates every pixel of the field once, row by row. *)
Lemma indexed_pixels_values (flow : Flow) : map snd (indexed_pixels flow) = List.concat flow.
Proof.
  unfold indexed_pixels.
  assert (G : forall k, map snd (List.concat
    (map (fun '(i, row) =>
            map (fun '(j, v) => (inject_Z (Z.of_nat i), inject_Z (Z.of_nat j), v))
                (combine (seq 0 (List.length row)) row))
         (combine (seq k (List.length flow)) flow))) = List.concat flow).
  { induction flow as [|row flow IH]; intros k; [reflexivity|].
    cbn [List.length seq combine map List.concat]. rewrite map_app, IH. f_equal.
    rewrite map_map.
    transitivity (map snd (combine (seq 0 (List.length row)) row)).
    - apply map_ext. intros [j v]. reflexivity.
    - apply combine_seq_snd. }
  apply G.
Qed.

(** The mean speed [_detect_zoom] and [_detect_rotation] compute is the
    mean per-pixel magnitude of [analyze_flow]. *)
Lemma zoom_magnitude_mean (sqrt_f : Q -> Q) (arctan2_f : Q -> Q -> Q) (pi_f : Q) (flow : Flow) :
  mean (map (fun '(_, _, (fx, fy)) => sqrt_f (fx * fx + fy * fy)) (indexed_pixels flow))
  = mean (pixel_magnitudes sqrt_f arctan2_f pi_f flow).
Proof.
  rewrite pixel_magnitudes_eq, <- indexed_pixels_values, map_map. f_equal.
  apply map_ext. intros [[y x] [fx fy]]. cbn. rewrite Qopp_mult_opp. reflexivity.
Qed.

Lemma detect_zoom_slow (sqrt_f : Q -> Q) (arctan2_f : Q -> Q -> Q) (pi_f : Q) (flow : Flow) :
  fst (detect_zoom sqrt_f flow) = true -> 3#10 <= mean (pixel_magnitudes sqrt_f arctan2_f pi_f flow).
Proof.
  rewrite <- (zoom_magnitude_mean sqrt_f arctan2_f pi_f flow).
  unfold detect_zoom. cbv zeta.
  match goal with |- context [qlt ?m (3#10)] => destruct (qlt_spec m (3#10)) end.
  - discriminate.
  - intros _. lra.
Qed.

Lemma detect_rotation_slow (sqrt_f : Q -> Q) (arctan2_f : Q -> Q -> Q) (pi_f : Q) (flow : Flow) :
  detect_rotation sqrt_f flow = true -> 3#10 <= mean (pixel_magnitudes sqrt_f arctan2_f pi_f flow).
Proof.
  rewrite <- (zoom_magnitude_mean sqrt_f arctan2_f pi_f flow).
  unfold detect_rotation. cbv zeta.
  match goal with |- context [qlt ?m (3#10)] => destruct (qlt_spec m (3#10)) end.
  - discriminate.
  - intros _. lra.
Qed.

(** The fields of [analyze_flow], by the outcome of the threshold test. *)
Lemma analyze_flow_cases (sqrt_f : Q -> Q) (arctan2_f : Q -> Q -> Q)
    (sin_f cos_f log_f : Q -> Q) (pi_f : Q) (flow : Flow) (mt : Q) :
  let m := analyze_flow sqrt_f arctan2_f sin_f cos_f log_f pi_f flow mt in
  let M := mean (pixel_magnitudes sqrt_f arctan2_f pi_f flow) in
  (M < mt /\ direction m = NONE /\ angle_degrees m = 0 /\
   is_divergent m = false /\ is_rotational m = false) \/
  (mt <= M /\ is_divergent m = fst (detect_zoom sqrt_f flow) /\
   is_rotational m = detect_rotation sqrt_f flow /\
   (exists a, angle_degrees m = pymod a 360) /\
   direction m =
     (if detect_rotation sqrt_f flow && negb (fst (detect_zoom sqrt_f flow)) then ROTATION
      else if fst (detect_zoom sqrt_f flow) then
        (if qlt 0 (snd (detect_zoom sqrt_f flow)) then ZOOM_IN else ZOOM_OUT)
      else angle_to_direction_8 (angle_degrees m))).
Proof.
  intros m M. subst m M. rewrite pixel_magnitudes_eq.
  unfold analyze_flow. cbv zeta. rewrite polar_magnitudes.
  match goal with |- context [qlt ?x mt] => destruct (qlt_spec x mt) as [L|L] end.
  - left. repeat split; assumption.
  - right. destruct (detect_zoom sqrt_f flow) as [dv sc]. cbn [fst snd].
    split; [lra|]. repeat split. eexists. reflexivity.
Qed.

(** [analyze_flow] reports [NONE] exactly when the mean per-pixel
    magnitude is below the threshold: a moving frame always gets a
    direction (compass, zoom or rotation), never [NONE] and never
    [MIXED], and its angle lies in [0, 360). *)
Theorem analyze_flow_direction_none_iff (sqrt_f : Q -> Q) (arctan2_f : Q -> Q -> Q)
    (sin_f cos_f log_f : Q -> Q) (pi_f : Q) (flow : Flow) (mt : Q) :
  let m := analyze_flow sqrt_f arctan2_f sin_f cos_f log_f pi_f flow mt in
  (direction m = NONE <-> mean (pixel_magnitudes sqrt_f arctan2_f pi_f flow) < mt) /\
  direction m <> MIXED /\
  0 <= angle_degrees m /\ angle_degrees m < 360.
Proof.
  intros m. subst m.
  destruct (analyze_flow_cases sqrt_f arctan2_f sin_f cos_f log_f pi_f flow mt)
    as [(L & D & A & _ & _) | (L & _ & _ & [a A] & D)].
  - rewrite D, A. split; [tauto|]. split; [discriminate|lra].
  - destruct (pymod_bounds a 360) as [B0 B1]; [reflexivity|].
    rewrite A. rewrite A in D. rewrite D.
    destruct (angle_to_direction_8_total (pymod a 360)) as [T1 T2].
    destruct (detect_rotation sqrt_f flow), (fst (detect_zoom sqrt_f flow)),
      (qlt 0 (snd (detect_zoom sqrt_f flow))); cbn [andb negb];
      (split; [split; [intro E; try discriminate E; contradiction|intro; lra]|]);
      (split; [try discriminate; assumption|lra]).
Qed.

(** The zoom and rotation flags are only raised on frames that reach the
    magnitude threshold and whose mean per-pixel speed is at least 0.3. *)
Theorem analyze_flow_flags_need_motion (sqrt_f : Q -> Q) (arctan2_f : Q -> Q -> Q)
    (sin_f cos_f log_f : Q -> Q) (pi_f : Q) (flow : Flow) (mt : Q) :
  let m := analyze_flow sqrt_f arctan2_f sin_f cos_f log_f pi_f flow mt in
  (is_divergent m = true \/ is_rotational m = true) ->
  mt <= mean (pixel_magnitudes sqrt_f arctan2_f pi_f flow) /\
  3#10 <= mean (pixel_magnitudes sqrt_f arctan2_f pi_f flow).
Proof.
  intros m. subst m.
  destruct (analyze_flow_cases sqrt_f arctan2_f sin_f cos_f log_f pi_f flow mt)
    as [(L & _ & _ & Dv & Rt) | (L & Dv & Rt & _ & _)].
  - rewrite Dv, Rt. intros [E|E]; discriminate E.
  - rewrite Dv, Rt. intros [E|E]; split; try exact L.
    + exact (detect_zoom_slow sqrt_f arctan2_f pi_f flow E).
    + exact (detect_rotation_slow sqrt_f arctan2_f pi_f flow E).
Qed.

(** A zoom direction is reported exactly when [is_divergent] is set, with
    [ZOOM_IN] for a positive divergence score; [ROTATION] exactly when the
    rotation flag is set without the zoom flag. *)
Theorem analyze_flow_zoom_rotation (sqrt_f : Q -> Q) (arctan2_f : Q -> Q -> Q)
    (sin_f cos_f log_f : Q -> Q) (pi_f : Q) (flow : Flow) (mt : Q) :
  let m := analyze_flow sqrt_f arctan2_f sin_f cos_f log_f pi_f flow mt in
  ((direction m = ZOOM_IN \/ direction m = ZOOM_OUT) <-> is_divergent m = true) /\
  (direction m = ZOOM_IN -> 0 < snd (detect_zoom sqrt_f flow)) /\
  (direction m = ROTATION <-> is_rotational m = true /\ is_divergent m = false).
Proof.
  intros m. subst m.
  destruct (analyze_flow_cases sqrt_f arctan2_f sin_f cos_f log_f pi_f flow mt)
    as [(L & D & _ & Dv & Rt) | (L & Dv & Rt & [a A] & D)].
  - rewrite D, Dv, Rt. split; [split|split; [|split]]; intros Hx;
      split_hyp Hx; discriminate Hx.
  - rewrite Dv, Rt, D. rewrite A.
    destruct (angle_to_direction_8_total (pymod a 360)) as [T1 T2].
    assert (T3 : forall d, angle_to_direction_8 (pymod a 360) = d ->
                 d <> ZOOM_IN /\ d <> ZOOM_OUT /\ d <> ROTATION).
    { intros d Ed. rewrite <- Ed. clear Ed.
      unfold angle_to_direction_8.
      destruct (pymod_bounds (pymod a 360) 360) as [H0 H1]; [reflexivity|].
      remember (pymod (pymod a 360) 360) as b eqn:Eb. clear Eb.
      repeat if_step; repeat split; discriminate. }
    destruct (T3 _ eq_refl) as (N1 & N2 & N3).
    destruct (detect_rotation sqrt_f flow), (fst (detect_zoom sqrt_f flow)),
      (qlt_spec 0 (snd (detect_zoom sqrt_f flow))); cbn [andb negb];
      (split; [split|split; [|split]]); intros Hx;
      split_hyp Hx; try discriminate Hx;
      try (exfalso; lra); try contradiction; try assumption;
      try (left; reflexivity); try (right; reflexivity); try (split; reflexivity);
      try reflexivity.
Qed.

(** ** The motion-change window *)

Lemma In_all_directions (d : MovementDirection) : In d all_directions.
Proof. destruct d; simpl; tauto. Qed.

Lemma count_dir_not_in (d : MovementDirection) (l : list MovementDirection) :
  ~ In d l -> count_dir d l = 0%nat.
Proof.
  unfold count_dir. induction l as [|x l IH]; intros H; [reflexivity|].
  cbn [filter]. destruct (direction_eqb d x) eqn:E.
  - apply direction_eqb_true in E. subst. exfalso. apply H. left. reflexivity.
  - apply IH. intros I. apply H. right. exact I.
Qed.

Lemma count_dir_filter_none (d : MovementDirection) (l : list MovementDirection) :
  d <> NONE ->
  count_dir d (filter (fun x => negb (direction_eqb x NONE)) l) = count_dir d l.
Proof.
  intros Hd. unfold count_dir. induction l as [|x l IH]; [reflexivity|].
  cbn [filter]. destruct (direction_eqb x NONE) eqn:Ex; cbn [negb].
  - apply direction_eqb_true in Ex. subst x.
    destruct (direction_eqb d NONE) eqn:E; [apply direction_eqb_true in E; contradiction|].
    exact IH.
  - cbn [filter]. destruct (direction_eqb d x); cbn [List.length]; rewrite IH; reflexivity.
Qed.

Lemma max_by_count_max (cands l : list MovementDirection) (d : MovementDirection) :
  In d cands -> (count_dir d l <= count_dir (max_by_count cands l) l)%nat.
Proof.
  destruct cands as [|c cs]; [intros []|]. cbn [max_by_count].
  set (f := fun best d => if Nat.ltb (count_dir best l) (count_dir d l) then d else best).
  assert (G : forall rest acc,
    (count_dir acc l <= count_dir (fold_left f rest acc) l)%nat /\
    forall x, In x rest -> (count_dir x l <= count_dir (fold_left f rest acc) l)%nat).
  { induction rest as [|y rest IH]; intros acc; simpl; [split; [lia|intros _ []]|].
    destruct (IH (f acc y)) as [A B].
    assert (S1 : (count_dir acc l <= count_dir (f acc y) l)%nat /\
                 (count_dir y l <= count_dir (f acc y) l)%nat).
    { unfold f. destruct (Nat.ltb_spec (count_dir acc l) (count_dir y l)); lia. }
    split; [lia|]. intros x [<-|Hx]; [lia|]. apply B, Hx. }
  intros [<-|Hd]; [apply (proj1 (G cs c))|]. apply (proj2 (G cs c)), Hd.
Qed.

(** [dominant_direction] is [NONE] exactly when every sample is [NONE];
    otherwise it is a sample of the list whose count is maximal among the
    directions other than [NONE] (however ties are broken). *)
Theorem dominant_direction_spec (l : list MovementDirection) :
  (dominant_direction l = NONE <-> forall d, In d l -> d = NONE) /\
  (dominant_direction l <> NONE ->
     In (dominant_direction l) l /\
     forall d, d <> NONE -> (count_dir d l <= count_dir (dominant_direction l) l)%nat).
Proof.
  split.
  - split.
    + intros E d Hd. destruct (MovementDirection_eq_dec d NONE) as [e|n]; [exact e|].
      exfalso. exact (dominant_direction_not_none l d Hd n E).
    + intros H. unfold dominant_direction.
      assert (F : filter (fun d => negb (direction_eqb d NONE)) l = []).
      { induction l as [|x l IH]; [reflexivity|]. cbn [filter].
        rewrite (H x (or_introl eq_refl)). cbn. apply IH.
        intros d Hd. apply H. right. exact Hd. }
      rewrite F. reflexivity.
  - unfold dominant_direction.
    remember (filter (fun d => negb (direction_eqb d NONE)) l) as fl eqn:Efl.
    destruct fl as [|z zs]; [intros N; contradiction N; reflexivity|].
    set (cands := filter (fun x => existsb (direction_eqb x) (z :: zs)) all_directions).
    intros Hn.
    assert (Hzc : In z cands).
    { apply filter_In. split; [apply In_all_directions|].
      apply existsb_exists. exists z. split; [left; reflexivity|apply direction_eqb_true; reflexivity]. }
    assert (Hr := max_by_count_in cands (z :: zs) ltac:(intros E; rewrite E in Hzc; exact Hzc)).
    set (r := max_by_count cands (z :: zs)) in *.
    assert (Hrf : In r (z :: zs)).
    { apply filter_In in Hr as [_ Hr]. apply existsb_exists in Hr as [y [Hy Ey]].
      apply direction_eqb_true in Ey. subst y. exact Hy. }
    rewrite Efl in Hrf. apply filter_In in Hrf as [Hrl _].
    split; [exact Hrl|].
    intros d Hd.
    rewrite <- (count_dir_filter_none d l Hd), <- (count_dir_filter_none r l Hn), <- Efl.
    destruct (in_dec MovementDirection_eq_dec d (z :: zs)) as [I|I].
    + apply max_by_count_max. apply filter_In. split; [apply In_all_directions|].
      apply existsb_exists. exists d. split; [exact I|apply direction_eqb_true; reflexivity].
    + rewrite (count_dir_not_in d _ I). lia.
Qed.

(** [circular_mean] is NaN exactly on an empty half and otherwise an angle
    in [0, 360). *)
Theorem circular_mean_range (arctan2_f : Q -> Q -> Q) (sin_f cos_f : Q -> Q) (pi_f : Q)
    (l : list Q) :
  (circular_mean arctan2_f sin_f cos_f pi_f l = None <-> l = []) /\
  (forall a, circular_mean arctan2_f sin_f cos_f pi_f l = Some a -> 0 <= a /\ a < 360).
Proof.
  destruct l as [|x l]; cbn [circular_mean].
  - split; [tauto|]. intros a E. discriminate E.
  - split; [split; intro E; discriminate E|].
    intros a E. injection E as <-. apply pymod_bounds. reflexivity.
Qed.

Lemma angle_difference_bounds (a1 a2 : Q) :
  0 <= angle_difference a1 a2 /\ angle_difference a1 a2 <= 180.
Proof.
  unfold angle_difference.
  destruct (pymod_bounds (Qabs (a1 - a2)) 360) as [L U]; [reflexivity|].
  destruct (py_min_spec (pymod (Qabs (a1 - a2)) 360) (360 - pymod (Qabs (a1 - a2)) 360))
    as [P1 P2].
  destruct (Qlt_le_dec (360 - pymod (Qabs (a1 - a2)) 360) (pymod (Qabs (a1 - a2)) 360)) as [C|C];
    [rewrite (P1 C) | rewrite (P2 C)]; lra.
Qed.

Lemma py_min_one_range (x : Q) : 0 <= x -> 0 <= py_min 1 x /\ py_min 1 x <= 1.
Proof.
  intros H. destruct (py_min_spec 1 x) as [P1 P2].
  destruct (Qlt_le_dec x 1) as [C|C]; [rewrite (P1 C)|rewrite (P2 C)]; lra.
Qed.

Lemma Forall_firstn_skipn {A : Type} (P : A -> Prop) (n : nat) (l : list A) :
  Forall P l -> Forall P (firstn n l) /\ Forall P (skipn n l).
Proof.
  intros H. rewrite Forall_forall in H. split; apply Forall_forall; intros x Hx; apply H;
    rewrite <- (firstn_skipn n l); apply in_or_app; [left|right]; exact Hx.
Qed.

Lemma np_mean_nonneg (l : list Q) (f : Q) :
  Forall (fun m => 0 <= m) l -> np_mean l = Some f -> 0 <= f.
Proof.
  intros H E. destruct l as [|y l']; [discriminate|].
  injection E as <-.
  assert (S : 0 <= fold_right Qplus 0 (y :: l')).
  { clear -H. induction H; cbn [fold_right]; lra. }
  apply Qdiv_nonneg; [exact S|].
  unfold Qlt. cbn [Qnum Qden inject_Z]. cbn [List.length]. lia.
Qed.

(** A reported motion change has a confidence in [0, 1] when the
    magnitudes are non-negative (as [analyze_flow] produces them); a change
    comes with a type, and no change is [changed = False, type = None,
    confidence = 0]. *)
Theorem detect_motion_change_confidence (arctan2_f : Q -> Q -> Q) (sin_f cos_f : Q -> Q)
    (pi_f : Q) (cd : CutDetector) (angles mags : list Q) (dirs : list MovementDirection)
    (Hm : Forall (fun m => 0 <= m) mags) :
  let c := detect_motion_change arctan2_f sin_f cos_f pi_f cd angles mags dirs in
  0 <= change_confidence c /\ change_confidence c <= 1 /\
  (changed c = true -> exists t, change_type c = Some t) /\
  (changed c = false -> c = no_change).
Proof.
  intros c. subst c. unfold detect_motion_change. cbv zeta.
  set (half := (List.length angles / 2)%nat).
  destruct (Forall_firstn_skipn _ half _ Hm) as [F1 F2].
  destruct (np_mean (firstn half mags)) as [f|] eqn:Ef;
    [|cbn; repeat split; try lra; intros E; discriminate E].
  destruct (np_mean (skipn half mags)) as [s|] eqn:Es;
    [|cbn; repeat split; try lra; intros E; discriminate E].
  pose proof (np_mean_nonneg _ _ F1 Ef) as Pf. pose proof (np_mean_nonneg _ _ F2 Es) as Ps.
  assert (R1 : 0 <= f / (s + (1#10)) / 8).
  { apply Qdiv_nonneg; [apply Qdiv_nonneg; [exact Pf|lra]|reflexivity]. }
  assert (R2 : 0 <= s / (f + (1#10)) / 8).
  { apply Qdiv_nonneg; [apply Qdiv_nonneg; [exact Ps|lra]|reflexivity]. }
  destruct (qlt _ f && qlt s _).
  { destruct (py_min_one_range _ R1). cbn. repeat split; try assumption.
    - eexists. reflexivity.
    - intros E; discriminate E. }
  destruct (qlt f _ && qlt _ s).
  { destruct (py_min_one_range _ R2). cbn. repeat split; try assumption.
    - eexists. reflexivity.
    - intros E; discriminate E. }
  destruct (qlt _ f && qlt _ s);
    [|cbn; repeat split; try lra; intros E; discriminate E].
  destruct (circular_mean arctan2_f sin_f cos_f pi_f (firstn half angles)) as [a1|];
    [|cbn; repeat split; try lra; intros E; discriminate E].
  destruct (circular_mean arctan2_f sin_f cos_f pi_f (skipn half angles)) as [a2|];
    [|cbn; repeat split; try lra; intros E; discriminate E].
  destruct (qle _ _); [|cbn; repeat split; try lra; intros E; discriminate E].
  destruct (angle_difference_bounds a1 a2) as [A0 A1].
  assert (R3 : 0 <= angle_difference a1 a2 / 180) by (apply Qdiv_nonneg; [exact A0|reflexivity]).
  destruct (py_min_one_range _ R3). cbn. repeat split; try assumption.
  - eexists. reflexivity.
  - intros E; discriminate E.
Qed.

Lemma detect_motion_change_short (arctan2_f : Q -> Q -> Q) (sin_f cos_f : Q -> Q)
    (pi_f : Q) (cd : CutDetector) (angles mags : list Q) (dirs : list MovementDirection) :
  (List.length angles < 2)%nat ->
  detect_motion_change arctan2_f sin_f cos_f pi_f cd angles mags dirs = no_change.
Proof.
  intros H. unfold detect_motion_change. cbv zeta.
  replace (List.length angles / 2)%nat with 0%nat
    by (symmetry; apply Nat.div_small; exact H).
  reflexivity.
Qed.

(** A window of fewer than two samples never reports a motion change: the
    first half is empty, its mean is NaN and every rule compares false. *)
Theorem detect_motion_change_needs_two (arctan2_f : Q -> Q -> Q) (sin_f cos_f : Q -> Q)
    (pi_f : Q) (cd : CutDetector) (angles mags : list Q) (dirs : list MovementDirection)
    (H : (List.length angles < 2)%nat) :
  changed (detect_motion_change arctan2_f sin_f cos_f pi_f cd angles mags dirs) = false.
Proof.
  rewrite (detect_motion_change_short arctan2_f sin_f cos_f pi_f cd angles mags dirs H).
  reflexivity.
Qed.

(** ** Scene cuts *)

(** [is_scene_cut] reports a cut exactly when the histogram difference
    exceeds its threshold or the SSIM is below its threshold, and returns
    confidence 0 otherwise; with a positive histogram threshold and an
    SSIM threshold below 1 (the detector caps it at 0.99), a reported cut
    has a positive confidence. *)
Theorem is_scene_cut_spec (Frame : Type) (histogram_difference ssim_score : Frame -> Frame -> Q)
    (f1 f2 : Frame) (ht st : Q) (Hht : 0 < ht) (Hst : st < 1) :
  let r := is_scene_cut Frame histogram_difference ssim_score f1 f2 ht st in
  (fst r = true <-> ht < histogram_difference f1 f2 \/ ssim_score f1 f2 < st) /\
  (fst r = false -> snd r = 0) /\
  (fst r = true -> 0 < snd r).
Proof.
  intros r. subst r. unfold is_scene_cut. cbv zeta.
  set (hd := histogram_difference f1 f2). set (ss := ssim_score f1 f2).
  assert (D : 0 < 1 - st + (1#1000000)) by lra.
  destruct (qlt_spec ht hd) as [Lh|Lh]; destruct (qlt_spec ss st) as [Ls|Ls]; cbn [andb fst snd].
  - assert (P : 0 < (hd / ht + (1 - ss) / (1 - st + (1#1000000))) / 2).
    { apply Qdiv_pos; [|reflexivity].
      assert (0 < hd / ht) by (apply Qdiv_pos; lra).
      assert (0 < (1 - ss) / (1 - st + (1#1000000))) by (apply Qdiv_pos; lra). lra. }
    destruct (py_min_spec 1 ((hd / ht + (1 - ss) / (1 - st + (1#1000000))) / 2)) as [P1 P2].
    split; [tauto|]. split; [intros E; discriminate E|intros _].
    destruct (Qlt_le_dec ((hd / ht + (1 - ss) / (1 - st + (1#1000000))) / 2) 1) as [C|C];
      [rewrite (P1 C)|rewrite (P2 C)]; lra.
  - split; [tauto|]. split; [intros E; discriminate E|intros _].
    assert (0 < hd / ht) by (apply Qdiv_pos; lra). lra.
  - split; [tauto|]. split; [intros E; discriminate E|intros _].
    assert (0 < (1 - ss) / (1 - st + (1#1000000))) by (apply Qdiv_pos; lra). lra.
  - split; [split; [intros E; discriminate E|intros [C|C]; lra]|].
    split; [reflexivity|intros E; discriminate E].
Qed.

(** ** The detection loop, further *)

Lemma skip_frames_spec {Frame : Type} (n : nat) (c : list (option Frame)) (fn : Z) :
  snd (skip_frames Frame n c fn) = (fn + Z.of_nat n)%Z /\
  ((n <= List.length c)%nat -> (List.length (fst (skip_frames Frame n c fn)) + n = List.length c)%nat) /\
  ((List.length c < n)%nat -> fst (skip_frames Frame n c fn) = []).
Proof.
  revert c fn. induction n as [|n IH]; intros c fn; cbn [skip_frames fst snd].
  - split; [lia|]. split; [lia|intros H; lia].
  - destruct (IH (snd (cap_read Frame c)) (fn + 1)%Z) as (A & B & C).
    split; [rewrite A; lia|].
    destruct c as [|x c]; cbn [cap_read snd List.length] in *.
    + split; [intros H; lia|intros _].
      destruct (Nat.eq_dec n 0) as [->|Hn]; [reflexivity|apply C; lia].
    + split; [intros H; specialize (B ltac:(lia)); lia|intros H; apply C; lia].
Qed.

Section DetectExtras.

Variable Frame : Type.
Variable cvt_gray : Frame -> Frame.
Variable compute_optical_flow : Frame -> Frame -> Flow.
Variable histogram_difference ssim_score : Frame -> Frame -> Q.
Variable sqrt_f : Q -> Q.
Variable arctan2_f : Q -> Q -> Q.
Variable sin_f cos_f log_f : Q -> Q.
Variable pi_f : Q.
Variable cd : CutDetector.

Abbreviation step' := (step Frame cvt_gray compute_optical_flow histogram_difference ssim_score
                    sqrt_f arctan2_f sin_f cos_f log_f pi_f cd).
Abbreviation detect_loop' := (detect_loop Frame cvt_gray compute_optical_flow
                    histogram_difference ssim_score sqrt_f arctan2_f sin_f cos_f log_f pi_f cd).
Abbreviation detect' := (detect Frame cvt_gray compute_optical_flow histogram_difference ssim_score
                    sqrt_f arctan2_f sin_f cos_f log_f pi_f cd).
Abbreviation evaluate_candidate' := (evaluate_candidate Frame histogram_difference ssim_score
                    arctan2_f sin_f cos_f pi_f cd).
Abbreviation worker_step' := (worker_step Frame cvt_gray compute_optical_flow histogram_difference
                    ssim_score sqrt_f arctan2_f sin_f cos_f log_f pi_f cd).
Abbreviation worker_loop' := (worker_loop Frame cvt_gray compute_optical_flow
                    histogram_difference ssim_score sqrt_f arctan2_f sin_f cos_f log_f pi_f cd).
Abbreviation detect_with_signal' := (detect_with_signal Frame cvt_gray compute_optical_flow
                    histogram_difference ssim_score sqrt_f arctan2_f sin_f cos_f log_f pi_f cd).

(** A state property kept by every iteration of the loop is kept by the
    loop. *)
Lemma detect_loop_preserves (P : DetectState Frame -> Prop) (stop_flag : nat -> bool)
    (fps : Q) (minf : Z) :
  (forall st curr c1 c2 fn1,
     skip_frames Frame (Z.to_nat (frame_skip cd)) (cap _ st) (frame_number _ st) = (c1, fn1) ->
     c1 = Some curr :: c2 -> P st -> P (step' fps minf st curr c2 fn1)) ->
  forall fuel iter st, P st -> P (detect_loop' stop_flag fps minf fuel iter st).
Proof.
  intros Hs fuel. induction fuel as [|fuel IH]; intros iter st H; cbn [detect_loop]; [exact H|].
  destruct (stop_flag iter); [exact H|].
  destruct (skip_frames Frame (Z.to_nat (frame_skip cd)) (cap Frame st) (frame_number Frame st))
    as [c1 fn1] eqn:Es.
  destruct c1 as [|[curr|] c2]; cbn [cap_read]; [exact H| |exact H].
  apply IH. exact (Hs st curr _ c2 fn1 Es eq_refl H).
Qed.

Lemma worker_loop_preserves (P : DetectState Frame -> Prop) (stop : nat -> bool)
    (fps : Q) (minf : Z) :
  (forall st curr c1 c2 fn1,
     skip_frames Frame (Z.to_nat (frame_skip cd)) (cap _ st) (frame_number _ st) = (c1, fn1) ->
     c1 = Some curr :: c2 -> P st -> P (worker_step' fps minf st curr c2 fn1)) ->
  forall fuel iter st, P st -> P (worker_loop' stop fps minf fuel iter st).
Proof.
  intros Hs fuel. induction fuel as [|fuel IH]; intros iter st H; cbn [worker_loop]; [exact H|].
  destruct (stop iter); [exact H|].
  destruct (skip_frames Frame (Z.to_nat (frame_skip cd)) (cap Frame st) (frame_number Frame st))
    as [c1 fn1] eqn:Es.
  destruct c1 as [|[curr|] c2]; cbn [cap_read]; [exact H| |exact H].
  apply IH. exact (Hs st curr _ c2 fn1 Es eq_refl H).
Qed.

(** A successful run is the loop from the state after the first read. *)
Lemma detect_ok_loop (src : VideoSource Frame) (stop_flag : nat -> bool) (cuts : list CutEvent) :
  detect' src stop_flag = Ok cuts ->
  cuts = [] \/
  exists fuel st0, cut_points _ st0 = [] /\ last_cut_frame _ st0 = 0%Z /\
    angle_window _ st0 = [] /\ magnitude_window _ st0 = [] /\
    frame_number _ st0 = 1%Z /\ (1 + List.length (cap _ st0))%nat = List.length (reads _ src) /\
    cuts = cut_points _ (detect_loop' stop_flag (effective_fps _ src)
                          (min_frames_between_cuts cd (effective_fps _ src)) fuel 0 st0).
Proof.
  unfold detect. destruct (negb (opened Frame src)); [discriminate|].
  destruct (Z.ltb (window_size cd) 0); [discriminate|].
  destruct (reads Frame src) as [|[prev|] c1]; cbn [cap_read].
  - intros E. injection E as <-. left. reflexivity.
  - intros E. injection E as <-. right. exists (S (List.length c1)).
    exists {| cut_points := []; last_cut_frame := 0; angle_window := [];
              magnitude_window := []; direction_window := [];
              prev_frame := prev; prev_gray := cvt_gray prev;
              frame_number := 1; cap := c1 |}.
    repeat split; reflexivity.
  - intros E. injection E as <-. left. reflexivity.
Qed.

Lemma worker_ok_loop (src : VideoSource Frame) (stop : nat -> bool) (cuts : list CutEvent) :
  detect_with_signal' src stop = Ok cuts ->
  cuts = [] \/
  exists fuel st0, cut_points _ st0 = [] /\ last_cut_frame _ st0 = 0%Z /\
    magnitude_window _ st0 = [] /\ frame_number _ st0 = 1%Z /\
    cuts = cut_points _ (worker_loop' stop (effective_fps _ src)
                          (min_frames_between_cuts cd (effective_fps _ src)) fuel 0 st0).
Proof.
  unfold detect_with_signal. destruct (negb (opened Frame src)); [discriminate|].
  destruct (Z.ltb (window_size cd) 0); [discriminate|].
  destruct (reads Frame src) as [|[prev|] c1]; cbn [cap_read].
  - intros E. injection E as <-. left. reflexivity.
  - intros E. injection E as <-. right. exists (S (List.length c1)).
    exists {| cut_points := []; last_cut_frame := 0; angle_window := [];
              magnitude_window := []; direction_window := [];
              prev_frame := prev; prev_gray := cvt_gray prev;
              frame_number := 1; cap := c1 |}.
    repeat split; reflexivity.
  - intros E. injection E as <-. left. reflexivity.
Qed.

Lemma step_frame_cap (fps : Q) (minf : Z) (st : DetectState Frame) (curr : Frame)
    (c : list (option Frame)) (fn : Z) :
  frame_number _ (step' fps minf st curr c fn) = (fn + 1)%Z /\
  cap _ (step' fps minf st curr c fn) = c.
Proof.
  unfold step. cbv zeta. destruct (Z.ltb _ _); [split; reflexivity|].
  destruct (evaluate_candidate' _ _ _ _ _) as [cr conf].
  destruct (truthy cr); split; reflexivity.
Qed.

(** The chronological invariant of the loop, for a source of [n] reads. *)
Definition chrono (n : nat) (st : DetectState Frame) : Prop :=
  spaced 1 (cut_points _ st) /\
  Forall (fun e => (1 < frame e /\ frame e <= frame_number _ st)%Z) (cut_points _ st) /\
  (frame_number _ st + Z.of_nat (List.length (cap _ st)) = Z.of_nat n)%Z /\
  (1 <= frame_number _ st)%Z.

Lemma chrono_step (n : nat) (fps : Q) (minf : Z) (st : DetectState Frame) (curr : Frame)
    (c1 c2 : list (option Frame)) (fn1 : Z) :
  skip_frames Frame (Z.to_nat (frame_skip cd)) (cap _ st) (frame_number _ st) = (c1, fn1) ->
  c1 = Some curr :: c2 -> chrono n st -> chrono n (step' fps minf st curr c2 fn1).
Proof.
  intros Es Ec (Hs & Hf & Hn & H1).
  destruct (skip_frames_spec (Z.to_nat (frame_skip cd)) (cap Frame st) (frame_number Frame st))
    as (A & B & C).
  rewrite Es in A, B, C. cbn [fst snd] in A, B, C. subst c1.
  assert (Hle : (Z.to_nat (frame_skip cd) <= List.length (cap Frame st))%nat).
  { destruct (Nat.le_gt_cases (Z.to_nat (frame_skip cd)) (List.length (cap Frame st))) as [L|L];
      [exact L|discriminate (C L)]. }
  specialize (B Hle). cbn [List.length] in B.
  destruct (step_frame_cap fps minf st curr c2 fn1) as [Fn Cp].
  destruct (step_cases Frame cvt_gray compute_optical_flow histogram_difference ssim_score
              sqrt_f arctan2_f sin_f cos_f log_f pi_f cd fps minf st curr c2 fn1)
    as [(E1 & _) | (ev & cand & E1 & _ & _ & _ & Hfe & _)];
    unfold chrono; rewrite Fn, Cp, E1; (split; [|split; [|split]]); try lia.
  - exact Hs.
  - eapply Forall_impl; [|exact Hf]. intros e He. cbn beta in He. lia.
  - apply spaced_snoc; [exact Hs|]. intros l' e' E.
    assert (Hin : In e' (cut_points Frame st)) by (rewrite E; apply in_or_app; right; left; reflexivity).
    rewrite Forall_forall in Hf. specialize (Hf e' Hin). lia.
  - apply Forall_app. split.
    + eapply Forall_impl; [|exact Hf]. intros e He. cbn beta in He. lia.
    + constructor; [lia|constructor].
Qed.

(** Every run returns its cuts in chronological order: their frame
    numbers strictly increase and lie between 2 and the number of frames
    the source delivers, and, for a non-negative [CAP_PROP_FPS], so do
    their timestamps. *)
Theorem detect_chronological (src : VideoSource Frame) (stop_flag : nat -> bool)
    (cuts : list CutEvent) (H : detect' src stop_flag = Ok cuts) :
  spaced 1 cuts /\
  Forall (fun e => (1 < frame e /\ frame e <= Z.of_nat (List.length (reads _ src)))%Z) cuts /\
  (0 <= cap_fps _ src ->
     forall l1 e1 e2 l2, cuts = l1 ++ e1 :: e2 :: l2 -> timestamp e1 < timestamp e2).
Proof.
  destruct (detect_ok_loop src stop_flag cuts H)
    as [->|(fuel & st0 & P0 & _ & _ & _ & F0 & N0 & E)].
  { split; [intros l1 e1 e2 l2 E; destruct l1; discriminate|].
    split; [constructor|]. intros _ l1 e1 e2 l2 E; destruct l1; discriminate. }
  assert (Hc : chrono (List.length (reads Frame src))
                 (detect_loop' stop_flag (effective_fps _ src)
                    (min_frames_between_cuts cd (effective_fps _ src)) fuel 0 st0)).
  { apply detect_loop_preserves.
    - intros st curr c1 c2 fn1 Es Ec. exact (chrono_step _ _ _ st curr c1 c2 fn1 Es Ec).
    - unfold chrono. rewrite P0, F0.
      split; [intros l1 e1 e2 l2 E'; destruct l1; discriminate|].
      split; [constructor|]. split; lia. }
  destruct Hc as (Hs & Hf & Hn & H1). rewrite <- E in Hs, Hf.
  split; [exact Hs|]. split.
  - eapply Forall_impl; [|exact Hf]. intros e He. cbn beta in He. lia.
  - intros Hfps l1 e1 e2 l2 Ecut.
    pose proof (Hs l1 e1 e2 l2 Ecut) as D.
    destruct (detect_ok_invariant Frame cvt_gray compute_optical_flow histogram_difference
                ssim_score sqrt_f arctan2_f sin_f cos_f log_f pi_f cd src stop_flag cuts H)
      as [Ec|(st & Ec & _ & _ & Ht)]; [rewrite Ec in Ecut; destruct l1; discriminate|].
    rewrite <- Ec, Ecut, Forall_forall in Ht.
    rewrite (Ht e1 ltac:(apply in_or_app; right; left; reflexivity)).
    rewrite (Ht e2 ltac:(apply in_or_app; right; right; left; reflexivity)).
    pose proof (effective_fps_pos Frame src Hfps) as Pf.
    pose proof (ts_diff_lower (effective_fps Frame src) 1 (frame e1) (frame e2) Pf D) as T.
    assert (0 < inject_Z 1 / effective_fps Frame src) by (apply Qdiv_pos; [reflexivity|exact Pf]).
    lra.
Qed.

(** A window of length at most [n] stays so after an append. *)
Lemma deque_append_maxlen {A : Type} (n : Z) (w : list A) (x : A) :
  (List.length (deque_append n w x) <= Z.to_nat n)%nat.
Proof.
  unfold deque_append. rewrite length_skipn. lia.
Qed.

(** With fewer than two angles only the scene test can name a cut. *)
Lemma evaluate_candidate_short (aw mw : list Q) (dw : list MovementDirection)
    (prev curr : Frame) :
  (List.length aw < 2)%nat ->
  fst (evaluate_candidate' aw mw dw prev curr) = Some "corte_de_cena"%string \/
  fst (evaluate_candidate' aw mw dw prev curr) = None.
Proof.
  intros H. unfold evaluate_candidate, motion_candidate.
  rewrite (detect_motion_change_short arctan2_f sin_f cos_f pi_f cd aw mw dw H).
  cbn [changed no_change].
  destruct (Z.leb _ _);
    (destruct (is_scene_cut Frame histogram_difference ssim_score prev curr
                 (histogram_threshold cd) (ssim_threshold cd)) as [sc scf];
     destruct (sc && qlt 0 scf); cbn; auto).
Qed.

(** With a [window_size] of at most one the motion rules never fire
    (the window holds fewer than two angles), so every cut that [detect]
    returns is a scene cut. *)
Theorem detect_window_one_scene_only (src : VideoSource Frame) (stop_flag : nat -> bool)
    (cuts : list CutEvent) (Hws : (window_size cd <= 1)%Z)
    (H : detect' src stop_flag = Ok cuts) :
  Forall (fun e => cut_type e = "corte_de_cena"%string) cuts.
Proof.
  destruct (detect_ok_loop src stop_flag cuts H)
    as [->|(fuel & st0 & P0 & _ & _ & _ & _ & _ & E)]; [constructor|].
  rewrite E.
  apply (detect_loop_preserves
           (fun st => Forall (fun e => cut_type e = "corte_de_cena"%string) (cut_points _ st)));
    [|rewrite P0; constructor].
  intros st curr c1 c2 fn1 _ _ Hst.
  destruct (step_cases Frame cvt_gray compute_optical_flow histogram_difference ssim_score
              sqrt_f arctan2_f sin_f cos_f log_f pi_f cd
              (effective_fps Frame src) (min_frames_between_cuts cd (effective_fps Frame src))
              st curr c2 fn1)
    as [(E1 & _) | (ev & cand & E1 & _ & _ & _ & _ & _ & _ & _ & Ht & Hty & Hc)];
    rewrite E1; [exact Hst|].
  apply Forall_app. split; [exact Hst|]. constructor; [|constructor].
  match type of Hc with cand = evaluate_candidate' ?aw ?mw ?dw ?p ?c =>
    assert (L : (List.length aw < 2)%nat)
      by (pose proof (deque_append_maxlen (window_size cd) (angle_window Frame st)
                        (angle_degrees (analyze_flow sqrt_f arctan2_f sin_f cos_f log_f pi_f
                           (compute_optical_flow (prev_gray Frame st) (cvt_gray curr))
                           (magnitude_threshold cd)))); lia);
    destruct (evaluate_candidate_short aw mw dw p c L) as [X|X]
  end; rewrite <- Hc in X; rewrite X in Hty, Ht; [injection Hty as Hty; exact Hty|discriminate].
Qed.

(** One iteration of the worker: no cut, the magnitude window grown by at
    most one; or a cut at [fn + 1], possible only once [min_frames] have
    passed and the grown window is full. *)
Lemma worker_step_cases (fps : Q) (minf : Z) (st : DetectState Frame) (curr : Frame)
    (c : list (option Frame)) (fn : Z) :
  let st' := worker_step' fps minf st curr c fn in
  frame_number _ st' = (fn + 1)%Z /\ cap _ st' = c /\
  ((cut_points _ st' = cut_points _ st /\ last_cut_frame _ st' = last_cut_frame _ st /\
    (List.length (magnitude_window _ st') <= S (List.length (magnitude_window _ st)))%nat)
   \/
   (exists ev, cut_points _ st' = cut_points _ st ++ [ev] /\ magnitude_window _ st' = [] /\
      frame ev = (fn + 1)%Z /\ last_cut_frame _ st' = (fn + 1)%Z /\
      (minf <= fn + 1 - last_cut_frame _ st)%Z /\
      (window_size cd <= Z.of_nat (S (List.length (magnitude_window _ st))))%Z)).
Proof.
  intros st'. subst st'. unfold worker_step. cbv zeta.
  set (mo := analyze_flow sqrt_f arctan2_f sin_f cos_f log_f pi_f
               (compute_optical_flow (prev_gray Frame st) (cvt_gray curr)) (magnitude_threshold cd)).
  pose proof (deque_append_length (window_size cd) (magnitude_window Frame st) (magnitude mo)) as L.
  destruct (Z.leb minf _ && Z.leb (window_size cd) _) eqn:G.
  - apply andb_true_iff in G. destruct G as [G1 G2]. apply Z.leb_le in G1, G2.
    destruct (if changed _ then _ else _) as [cr conf].
    destruct (is_scene_cut Frame histogram_difference ssim_score (prev_frame Frame st) curr
                (histogram_threshold cd) (ssim_threshold cd)) as [sc scf].
    destruct (if sc && qlt conf scf then _ else _) as [cr' conf'].
    destruct (truthy cr').
    + split; [reflexivity|]. split; [reflexivity|]. right. eexists.
      cbn. repeat split; try reflexivity; lia.
    + split; [reflexivity|]. split; [reflexivity|]. left. cbn. repeat split; exact L.
  - split; [reflexivity|]. split; [reflexivity|]. left. cbn. repeat split; exact L.
Qed.

(** The spacing invariant of the worker's loop, for [k] frames read per
    iteration. *)
Definition worker_spaced (m k : Z) (st : DetectState Frame) : Prop :=
  spaced m (cut_points _ st) /\
  (forall l e, cut_points _ st = l ++ [e] -> frame e = last_cut_frame _ st) /\
  (Z.of_nat (List.length (magnitude_window _ st)) * k <= frame_number _ st - last_cut_frame _ st)%Z.

Lemma worker_spaced_step (fps : Q) (minf : Z) (st : DetectState Frame) (curr : Frame)
    (c1 c2 : list (option Frame)) (fn1 : Z) :
  (0 <= window_size cd)%Z ->
  skip_frames Frame (Z.to_nat (frame_skip cd)) (cap _ st) (frame_number _ st) = (c1, fn1) ->
  worker_spaced (Z.max minf (window_size cd * (frame_skip cd + 1)))
    (Z.of_nat (Z.to_nat (frame_skip cd)) + 1) st ->
  worker_spaced (Z.max minf (window_size cd * (frame_skip cd + 1)))
    (Z.of_nat (Z.to_nat (frame_skip cd)) + 1) (worker_step' fps minf st curr c2 fn1).
Proof.
  intros Hws Es (Hs & Hl & Hm).
  destruct (skip_frames_spec (Z.to_nat (frame_skip cd)) (cap Frame st) (frame_number Frame st))
    as (A & _ & _).
  rewrite Es in A. cbn [snd] in A.
  destruct (worker_step_cases fps minf st curr c2 fn1)
    as (Fn & _ & [(E1 & E2 & E3) | (ev & E1 & E2 & E3 & E4 & E5 & E6)]);
    unfold worker_spaced; rewrite Fn, E1.
  - rewrite E2. split; [exact Hs|]. split; [exact Hl|]. nia.
  - rewrite E2, E4. split; [|split].
    + apply spaced_snoc; [exact Hs|]. intros l' e' E. rewrite (Hl l' e' E), E3.
      apply Z.max_lub; [lia|]. nia.
    + intros l e E. apply app_inj_tail in E. destruct E as [_ <-]. exact E3.
    + cbn [List.length]. lia.
Qed.

(** The GUI worker spaces its cuts by at least [min_frames] frames, and
    also by at least [window_size * (frame_skip + 1)] frames: after a cut
    the magnitude window is empty and must fill up again, one sample per
    iteration of [frame_skip + 1] frames, before the next test runs. *)
Theorem detect_with_signal_spacing (src : VideoSource Frame) (stop : nat -> bool)
    (cuts : list CutEvent) (H : detect_with_signal' src stop = Ok cuts) :
  spaced (Z.max (min_frames_between_cuts cd (effective_fps _ src))
                (window_size cd * (frame_skip cd + 1))) cuts.
Proof.
  assert (Hws : (0 <= window_size cd)%Z).
  { unfold detect_with_signal in H. destruct (negb (opened Frame src)); [discriminate|].
    destruct (Z.ltb_spec (window_size cd) 0); [discriminate|assumption]. }
  destruct (worker_ok_loop src stop cuts H)
    as [->|(fuel & st0 & P0 & L0 & M0 & F0 & E)];
    [intros l1 e1 e2 l2 E; destruct l1; discriminate|].
  set (k := (Z.of_nat (Z.to_nat (frame_skip cd)) + 1)%Z).
  assert (I : worker_spaced (Z.max (min_frames_between_cuts cd (effective_fps _ src))
                                   (window_size cd * (frame_skip cd + 1))) k
                (worker_loop' stop (effective_fps _ src)
                   (min_frames_between_cuts cd (effective_fps _ src)) fuel 0 st0)).
  { apply worker_loop_preserves.
    - intros st curr c1 c2 fn1 Es _ Hst. exact (worker_spaced_step _ _ st curr c1 c2 fn1 Hws Es Hst).
    - unfold worker_spaced. rewrite P0, L0, M0, F0. split; [|split].
      + intros l1 e1 e2 l2 E'. destruct l1; discriminate.
      + intros l e E'. destruct l; discriminate.
      + cbn [List.length]. lia. }
  rewrite E. exact (proj1 I).
Qed.

End DetectExtras.

(** ** The exporter *)

(** Decimal value of a digit string. *)
Fixpoint dec_val (s : string) (acc : nat) : nat :=
  match s with
  | EmptyString => acc
  | String c r => dec_val r (acc * 10 + (Ascii.nat_of_ascii c - 48))
  end.

Definition is_digit (c : Ascii.ascii) : bool :=
  Nat.leb 48 (Ascii.nat_of_ascii c) && Nat.leb (Ascii.nat_of_ascii c) 57.

Fixpoint all_digits (s : string) : bool :=
  match s with
  | EmptyString => true
  | String c r => is_digit c && all_digits r
  end.

Lemma dec_val_app (s1 s2 : string) (a : nat) :
  dec_val (s1 ++ s2) a = dec_val s2 (dec_val s1 a).
Proof.
  revert a. induction s1 as [|c r IH]; intros a; [reflexivity|]. cbn. apply IH.
Qed.

Lemma all_digits_app (s1 s2 : string) :
  all_digits (s1 ++ s2) = all_digits s1 && all_digits s2.
Proof.
  induction s1 as [|c r IH]; [reflexivity|]. cbn. rewrite IH. apply andb_assoc.
Qed.

Lemma string_app_nil (s : string) : (s ++ "")%string = s.
Proof.
  induction s as [|c r IH]; [reflexivity|]. cbn. rewrite IH. reflexivity.
Qed.

Lemma string_app_assoc (a b c : string) : ((a ++ b) ++ c)%string = (a ++ (b ++ c))%string.
Proof.
  induction a as [|x r IH]; [reflexivity|]. cbn. rewrite IH. reflexivity.
Qed.

Lemma string_app_cancel_l (s x y : string) : (s ++ x)%string = (s ++ y)%string -> x = y.
Proof.
  induction s as [|c r IH]; [exact (fun H => H)|]. cbn. intros H. injection H. exact IH.
Qed.

Lemma digit_char (n : nat) :
  Ascii.nat_of_ascii (Ascii.ascii_of_nat (48 + n mod 10)) = (48 + n mod 10)%nat.
Proof.
  apply Ascii.nat_ascii_embedding. pose proof (Nat.mod_upper_bound n 10). lia.
Qed.

Lemma decimal_aux_spec (f n : nat) (acc : string) :
  (n < f)%nat ->
  exists p, decimal_aux f n acc = (p ++ acc)%string /\ dec_val p 0 = n /\ all_digits p = true.
Proof.
  revert n acc. induction f as [|f IH]; intros n acc H; [lia|]. cbn [decimal_aux].
  pose proof (Nat.mod_upper_bound n 10 ltac:(lia)) as Hm.
  pose proof (Nat.div_mod_eq n 10) as Hd.
  assert (Hdig : is_digit (Ascii.ascii_of_nat (48 + n mod 10)) = true).
  { unfold is_digit. rewrite digit_char. apply andb_true_iff. split; apply Nat.leb_le; lia. }
  destruct (Nat.ltb_spec n 10) as [L|L].
  - exists (String (Ascii.ascii_of_nat (48 + n mod 10)) EmptyString). split; [reflexivity|].
    cbn [dec_val all_digits]. rewrite digit_char, Hdig. split; [|reflexivity].
    rewrite Nat.mod_small by exact L. lia.
  - destruct (IH (n / 10)%nat (String (Ascii.ascii_of_nat (48 + n mod 10)) acc))
      as (p & E & V & D); [pose proof (Nat.div_lt n 10 ltac:(lia) ltac:(lia)); lia|].
    exists (p ++ String (Ascii.ascii_of_nat (48 + n mod 10)) EmptyString)%string.
    rewrite string_app_assoc. split; [exact E|]. split.
    + rewrite dec_val_app, V. cbn [dec_val]. rewrite digit_char. lia.
    + rewrite all_digits_app, D. cbn [all_digits]. rewrite Hdig. reflexivity.
Qed.

Lemma pad3_spec (n : nat) : dec_val (pad3 n) 0 = n /\ all_digits (pad3 n) = true.
Proof.
  unfold pad3, str_nat.
  destruct (decimal_aux_spec (S n) n "" (Nat.lt_succ_diag_r n)) as (p & E & V & D).
  rewrite string_app_nil in E. rewrite E.
  assert (Z0 : forall k, dec_val (zeros k) 0 = 0%nat /\ all_digits (zeros k) = true).
  { induction k as [|k [IH1 IH2]]; [split; reflexivity|]. cbn. split; [exact IH1|exact IH2]. }
  destruct (Z0 (3 - String.length p)%nat) as [Z1 Z2].
  rewrite dec_val_app, Z1, all_digits_app, Z2, D. split; [exact V|reflexivity].
Qed.

Lemma pad3_inj (i j : nat) : pad3 i = pad3 j -> i = j.
Proof.
  intros E. rewrite <- (proj1 (pad3_spec i)), <- (proj1 (pad3_spec j)), E. reflexivity.
Qed.

(** A digit prefix ends where the first non-digit starts. *)
Lemma digits_sep (a b : string) (c1 c2 : Ascii.ascii) (r1 r2 : string) :
  all_digits a = true -> all_digits b = true -> is_digit c1 = false -> is_digit c2 = false ->
  (a ++ String c1 r1)%string = (b ++ String c2 r2)%string -> a = b /\ c1 = c2 /\ r1 = r2.
Proof.
  revert b. induction a as [|x a IH]; intros b Ha Hb H1 H2 E; destruct b as [|y b]; cbn in E.
  - injection E as -> ->. split; [reflexivity|split; reflexivity].
  - injection E as -> _. cbn in Hb. rewrite H1 in Hb. discriminate.
  - injection E as <- _. cbn in Ha. rewrite H2 in Ha. discriminate.
  - injection E as <- E. cbn in Ha, Hb. apply andb_true_iff in Ha, Hb.
    destruct (IH b (proj2 Ha) (proj2 Hb) H1 H2 E) as (-> & -> & ->).
    split; [reflexivity|split; reflexivity].
Qed.

Lemma path_join_inj (a b1 b2 : string) :
  String.prefix "/" b1 = String.prefix "/" b2 -> path_join a b1 = path_join a b2 -> b1 = b2.
Proof.
  unfold path_join. intros P. rewrite P. destruct (String.prefix "/" b2); [exact (fun H => H)|].
  destruct (String.eqb a "" || ends_with_slash a).
  - apply string_app_cancel_l.
  - intros E. apply string_app_cancel_l in E. cbn in E. injection E. exact (fun H => H).
Qed.

Lemma prefix_slash (c : Ascii.ascii) (x y : string) :
  String.prefix "/" (String c x) = String.prefix "/" (String c y).
Proof.
  destruct x, y; reflexivity.
Qed.

(** The name of an output of segment [i]: its video ([true]) or its
    telemetry subtitles ([false]). *)
Definition out_name (vs : VideoSplitter) (output_dir input_stem : string) (video : bool)
    (i : nat) : string :=
  path_join output_dir
    (if video then segment_filename vs input_stem i else telemetry_filename input_stem i).

Lemma out_name_inj (vs : VideoSplitter) (od stem : string) (b1 b2 : bool) (i j : nat) :
  out_name vs od stem b1 i = out_name vs od stem b2 j -> b1 = b2 /\ i = j.
Proof.
  unfold out_name. intros E.
  apply path_join_inj in E;
    [|destruct b1, b2; unfold segment_filename, telemetry_filename;
      destruct stem as [|c r]; cbn [String.append]; apply prefix_slash].
  destruct (pad3_spec i) as [_ Di]. destruct (pad3_spec j) as [_ Dj].
  destruct b1, b2; unfold segment_filename, telemetry_filename in E;
    apply string_app_cancel_l in E; cbn [String.append] in E;
    repeat (injection E as E);
    (apply (digits_sep (pad3 i) (pad3 j)) in E; [|exact Di|exact Dj|reflexivity|reflexivity]);
    destruct E as (P & C & _);
    try discriminate C; (split; [reflexivity|apply pad3_inj; exact P]).
Qed.

Section SplitterTheorems.

Variable Thumb : Type.
Variable run_ok : list string -> Z -> bool.
Variable path_exists : string -> bool.
Variable path_stem : string -> string.
Variable fmt3 : Q -> string.
Variable get_duration : string -> Q.
Variable find_dji_subtitle_stream : string -> option Z.
Variable generate_thumbnail : string -> option Thumb.

Abbreviation split_loop' := (split_loop Thumb run_ok path_exists fmt3 generate_thumbnail).
Abbreviation split' := (split Thumb run_ok path_exists path_stem fmt3 get_duration
                          find_dji_subtitle_stream generate_thumbnail).

(** What the loop writes into one [seg_info]. *)
Definition seg_fields (vs : VideoSplitter) (inp : string) (cuts : list CutEvent)
    (od stem : string) (tsi : option Z) (s : SegInfo Thumb) : Prop :=
  duration _ s = seg_end _ s - seg_start _ s /\ qlt (duration _ s) (1#10) = false /\
  seg_path _ s = out_name vs od stem true (index _ s) /\
  (forall p, telemetry_srt _ s = Some p ->
     success _ s = true /\ tsi <> None /\ p = out_name vs od stem false (index _ s) /\
     path_exists p = true) /\
  (thumbnail _ s <> None -> success _ s = true /\ path_exists (seg_path _ s) = true) /\
  seg_cut_type _ s = (if Nat.leb (index _ s) (List.length cuts)
                      then cut_type (nth (index _ s - 1) cuts no_event) else "fim"%string).

Lemma split_loop_in (vs : VideoSplitter) (inp : string) (cuts : list CutEvent)
    (od stem : string) (tsi : option Z) (stop : nat -> bool) :
  forall pairs i s, In s (split_loop' vs inp cuts od stem tsi stop i pairs) ->
  exists k, (k < List.length pairs)%nat /\ index _ s = (i + k)%nat /\
    nth k pairs (0, 0) = (seg_start _ s, seg_end _ s) /\
    (forall j, (i <= S j <= index _ s)%nat -> stop j = false) /\
    seg_fields vs inp cuts od stem tsi s.
Proof.
  induction pairs as [|[a b] rest IH]; intros i s H; [destruct H|].
  cbn [split_loop] in H.
  destruct (stop (i - 1)%nat) eqn:Es; [destruct H|].
  assert (Step : In s (split_loop' vs inp cuts od stem tsi stop (S i) rest) ->
    exists k, (k < List.length ((a, b) :: rest))%nat /\ index _ s = (i + k)%nat /\
      nth k ((a, b) :: rest) (0, 0) = (seg_start _ s, seg_end _ s) /\
      (forall j, (i <= S j <= index _ s)%nat -> stop j = false) /\
      seg_fields vs inp cuts od stem tsi s).
  { intros H'. destruct (IH (S i) s H') as (k & K1 & K2 & K3 & K4 & K5).
    exists (S k). split; [cbn [List.length]; lia|]. split; [lia|]. split; [exact K3|].
    split; [|exact K5]. intros j J.
    destruct (Nat.eq_dec (S j) i) as [Ej|Nj];
      [replace j with (i - 1)%nat by lia; exact Es|apply K4; lia]. }
  destruct (qlt (b - a) (1#10)) eqn:Eq; [exact (Step H)|].
  destruct H as [<-|H]; [|exact (Step H)].
  exists 0%nat. cbn [index seg_start seg_end List.length nth].
  split; [lia|]. split; [lia|]. split; [reflexivity|].
  split; [intros j J; replace j with (i - 1)%nat by lia; exact Es|].
  unfold seg_fields.
  cbn [index seg_path seg_start seg_end duration success telemetry_srt thumbnail seg_cut_type].
  split; [reflexivity|]. split; [exact Eq|]. split; [reflexivity|]. split; [|split].
  - intros p. destruct (extract_segment run_ok fmt3 vs inp a (b - a) _) eqn:Ex;
      [|discriminate]. destruct tsi as [idx|]; [|discriminate].
    destruct (extract_segment_telemetry run_ok path_exists fmt3 inp a (b - a) _ idx) eqn:Et;
      [|discriminate].
    intros Hp. injection Hp as <-. split; [reflexivity|]. split; [discriminate|].
    split; [reflexivity|]. unfold extract_segment_telemetry in Et.
    apply andb_true_iff in Et. exact (proj2 Et).
  - destruct (extract_segment run_ok fmt3 vs inp a (b - a) _); cbn [andb];
      [|intros N; exfalso; apply N; reflexivity].
    destruct (path_exists _) eqn:Ep; [|intros N; exfalso; apply N; reflexivity].
    intros _. split; reflexivity.
  - reflexivity.
Qed.

Lemma split_pairs_shape (d : Q) (ts : list Q) :
  combine (removelast ((0 :: ts) ++ [d])) (tl ((0 :: ts) ++ [d])) =
  combine (0 :: ts) (ts ++ [d]).
Proof.
  rewrite removelast_last. reflexivity.
Qed.

(** Each segment of a split runs from boundary [index - 1] to boundary
    [index] of [[0.0] + cut timestamps + [duration]], lasts at least
    0.1 s, and carries the type of the cut that ends it ("fim" for the
    last one). *)
Theorem split_segment_bounds (vs : VideoSplitter) (inp : string) (cuts : list CutEvent)
    (od : string) (stop : nat -> bool) (s : SegInfo Thumb)
    (H : In s (split' vs inp cuts od stop)) :
  let ts := split_timestamps get_duration inp cuts in
  (1 <= index _ s <= S (List.length cuts))%nat /\
  seg_start _ s = nth (index _ s - 1) ts 0 /\ seg_end _ s = nth (index _ s) ts 0 /\
  duration _ s = seg_end _ s - seg_start _ s /\ 1#10 <= duration _ s /\
  ((index _ s <= List.length cuts)%nat ->
     seg_cut_type _ s = cut_type (nth (index _ s - 1) cuts no_event)) /\
  (index _ s = S (List.length cuts) -> seg_cut_type _ s = "fim"%string).
Proof.
  intros ts. unfold split in H. unfold split_timestamps in ts, H. subst ts.
  rewrite split_pairs_shape in H.
  destruct (split_loop_in _ _ _ _ _ _ _ _ _ _ H) as (k & K1 & K2 & K3 & _ & F).
  destruct F as (D & Q1 & _ & _ & _ & Ct).
  rewrite length_combine, length_app, length_map in K1. cbn [List.length] in K1.
  assert (Lc : List.length (0 :: map timestamp cuts) =
               List.length (map timestamp cuts ++ [get_duration inp])).
  { rewrite length_app. cbn [List.length]. lia. }
  rewrite (combine_nth _ _ k 0 0 Lc) in K3.
  injection K3 as K3 K4. rewrite K2. replace (1 + k - 1)%nat with k by lia.
  split; [lia|]. split; [|split].
  - rewrite <- K3. rewrite app_nth1 by (cbn [List.length]; rewrite length_map; lia).
    reflexivity.
  - rewrite <- K4. reflexivity.
  - split; [exact D|]. split.
    + unfold qlt in Q1. apply negb_false_iff, Qle_bool_iff in Q1. exact Q1.
    + rewrite K2 in Ct. replace (1 + k - 1)%nat with k in Ct by lia. split.
      * intros L. rewrite Ct. destruct (Nat.leb_spec (1 + k) (List.length cuts)); [reflexivity|lia].
      * intros L. rewrite Ct. destruct (Nat.leb_spec (1 + k) (List.length cuts)); [lia|reflexivity].
Qed.

(** A segment reports a telemetry file only when its video was cut, the
    splitter exports telemetry, and ffmpeg left the file on disk; it
    carries a thumbnail only when its video was cut and exists. *)
Theorem split_artifacts_need_success (vs : VideoSplitter) (inp : string)
    (cuts : list CutEvent) (od : string) (stop : nat -> bool) (s : SegInfo Thumb)
    (H : In s (split' vs inp cuts od stop)) :
  (forall p, telemetry_srt _ s = Some p ->
     success _ s = true /\ export_telemetry_srt vs = true /\ path_exists p = true) /\
  (thumbnail _ s <> None -> success _ s = true /\ path_exists (seg_path _ s) = true).
Proof.
  unfold split in H.
  destruct (split_loop_in _ _ _ _ _ _ _ _ _ _ H) as (k & _ & _ & _ & _ & F).
  destruct F as (_ & _ & _ & Tl & Th & _). split; [|exact Th].
  intros p Hp. destruct (Tl p Hp) as (S1 & S2 & _ & S4).
  split; [exact S1|]. split; [|exact S4].
  destruct (export_telemetry_srt vs); [reflexivity|]. exfalso. apply S2. reflexivity.
Qed.

(** Once [stop_flag()] answers [True] at its [k]-th call, no segment of
    index above [k] is produced. *)
Theorem split_stop (vs : VideoSplitter) (inp : string) (cuts : list CutEvent) (od : string)
    (stop : nat -> bool) (k : nat) (Hk : stop k = true) :
  Forall (fun s => (index _ s <= k)%nat) (split' vs inp cuts od stop).
Proof.
  apply Forall_forall. intros s H. unfold split in H.
  destruct (split_loop_in _ _ _ _ _ _ _ _ _ _ H) as (j & _ & J & _ & Hs & _).
  destruct (Nat.le_gt_cases (index _ s) k) as [L|L]; [exact L|].
  rewrite Hs in Hk; [discriminate|lia].
Qed.

(** The files a segment reports: its video, then its telemetry. *)
Definition seg_outputs (s : SegInfo Thumb) : list string :=
  seg_path _ s :: match telemetry_srt _ s with Some p => [p] | None => [] end.

Lemma split_loop_outputs (vs : VideoSplitter) (inp : string) (cuts : list CutEvent)
    (od stem : string) (tsi : option Z) (stop : nat -> bool) :
  forall pairs i,
  NoDup (flat_map seg_outputs (split_loop' vs inp cuts od stem tsi stop i pairs)) /\
  (forall p, In p (flat_map seg_outputs (split_loop' vs inp cuts od stem tsi stop i pairs)) ->
     exists b j, (i <= j)%nat /\ p = out_name vs od stem b j).
Proof.
  induction pairs as [|[a b] rest IH]; intros i.
  - split; [constructor|intros p []].
  - cbn [split_loop]. destruct (stop (i - 1)%nat); [split; [constructor|intros p []]|].
    destruct (IH (S i)) as [N R].
    assert (R' : forall p, In p (flat_map seg_outputs
                                   (split_loop' vs inp cuts od stem tsi stop (S i) rest)) ->
                 exists b j, (i <= j)%nat /\ p = out_name vs od stem b j).
    { intros p Hp. destruct (R p Hp) as (b' & j & J & E). exists b', j. split; [lia|exact E]. }
    destruct (qlt (b - a) (1#10)); [split; [exact N|exact R']|].
    cbn [flat_map]. unfold seg_outputs at 1.
    cbn [seg_path telemetry_srt].
    set (tel := match extract_segment run_ok fmt3 vs inp a (b - a) _, tsi with
                | true, Some idx => _ | _, _ => None end).
    assert (Tel : tel = None \/ tel = Some (out_name vs od stem false i)).
    { subst tel. destruct (extract_segment _ _ _ _ _ _ _), tsi; [|left; reflexivity..].
      destruct (extract_segment_telemetry _ _ _ _ _ _ _ _); [right|left]; reflexivity. }
    assert (Far : forall b' p, In p (flat_map seg_outputs
                                   (split_loop' vs inp cuts od stem tsi stop (S i) rest)) ->
                  p <> out_name vs od stem b' i).
    { intros b' p Hp E. destruct (R p Hp) as (b'' & j & J & E').
      rewrite E' in E. apply out_name_inj in E. lia. }
    change (path_join od (segment_filename vs stem i)) with (out_name vs od stem true i).
    split.
    + destruct Tel as [-> | ->]; cbn [app].
      * constructor; [|exact N]. intros Hin. exact (Far true _ Hin eq_refl).
      * constructor; [|constructor; [|exact N]].
        -- intros [E|Hin]; [apply out_name_inj in E; destruct E as [E _]; discriminate E|].
           exact (Far true _ Hin eq_refl).
        -- intros Hin. exact (Far false _ Hin eq_refl).
    + intros p Hp. destruct Hp as [<-|Hp]; [exists true, i; split; [lia|reflexivity]|].
      apply in_app_or in Hp. destruct Hp as [Hp|Hp]; [|exact (R' p Hp)].
      destruct Tel as [E|E]; rewrite E in Hp; [destruct Hp|].
      destruct Hp as [<-|[]]. exists false, i. split; [lia|reflexivity].
Qed.

(** A split never reports two outputs at the same path: segment videos
    and telemetry files are named after distinct zero-padded indices, and
    a video name ([".{fmt}"]) never equals a telemetry name
    (["_telemetria.srt"]). *)
Theorem split_outputs_distinct (vs : VideoSplitter) (inp : string) (cuts : list CutEvent)
    (od : string) (stop : nat -> bool) :
  NoDup (flat_map seg_outputs (split' vs inp cuts od stop)).
Proof.
  unfold split. apply split_loop_outputs.
Qed.

Lemma split_loop_all (vs : VideoSplitter) (inp : string) (cuts : list CutEvent)
    (od stem : string) (tsi : option Z) (stop : nat -> bool) (Hstop : forall k, stop k = false) :
  forall pairs i, Forall (fun ab => 1#10 <= snd ab - fst ab) pairs ->
  map (index _) (split_loop' vs inp cuts od stem tsi stop i pairs) = seq i (List.length pairs) /\
  map (seg_start _) (split_loop' vs inp cuts od stem tsi stop i pairs) = map fst pairs /\
  map (seg_end _) (split_loop' vs inp cuts od stem tsi stop i pairs) = map snd pairs.
Proof.
  induction pairs as [|[a b] rest IH]; intros i F; [split; [|split]; reflexivity|].
  inversion F as [|? ? Fab Frest]; subst. cbn [fst snd] in Fab.
  cbn [split_loop]. rewrite Hstop.
  assert (Eq : qlt (b - a) (1#10) = false).
  { unfold qlt. apply negb_false_iff, Qle_bool_iff. exact Fab. }
  rewrite Eq. destruct (IH (S i) Frest) as (I1 & I2 & I3).
  cbn [map seq List.length index seg_start seg_end fst snd].
  rewrite I1, I2, I3. split; [|split]; reflexivity.
Qed.

Lemma consecutive_pairs_forall (P : Q -> Q -> Prop) :
  forall ts, (forall l1 a b l2, ts = l1 ++ a :: b :: l2 -> P a b) ->
  Forall (fun ab => P (fst ab) (snd ab)) (combine (removelast ts) (tl ts)).
Proof.
  induction ts as [|x [|y r] IH]; intros H; [constructor|constructor|].
  change (combine (removelast (x :: y :: r)) (tl (x :: y :: r)))
    with ((x, y) :: combine (removelast (y :: r)) (tl (y :: r))).
  constructor.
  - exact (H [] x y r eq_refl).
  - apply IH. intros l1 a b l2 E. apply (H (x :: l1) a b l2). rewrite E. reflexivity.
Qed.

Lemma map_combine_fst_snd {A B : Type} (l : list A) (l' : list B) :
  List.length l = List.length l' -> map fst (combine l l') = l /\ map snd (combine l l') = l'.
Proof.
  revert l'. induction l as [|x l IH]; intros [|y l'] E; try discriminate; [split; reflexivity|].
  cbn in E |- *. destruct (IH l' ltac:(lia)) as [E1 E2]. rewrite E1, E2. split; reflexivity.
Qed.

(** Without a stop request, and when consecutive boundaries of
    [[0.0] + cut timestamps + [duration]] are at least 0.1 s apart, the
    segments are numbered [1 .. len(cut_points) + 1] and tile the video:
    their starts are the boundaries but the last, their ends the
    boundaries but the first. *)
Theorem split_covers_video (vs : VideoSplitter) (inp : string) (cuts : list CutEvent)
    (od : string) (stop : nat -> bool)
    (Hstop : forall k, stop k = false)
    (Hgap : forall l1 a b l2, split_timestamps get_duration inp cuts = l1 ++ a :: b :: l2 ->
            1#10 <= b - a) :
  let ts := split_timestamps get_duration inp cuts in
  map (index _) (split' vs inp cuts od stop) = seq 1 (S (List.length cuts)) /\
  map (seg_start _) (split' vs inp cuts od stop) = removelast ts /\
  map (seg_end _) (split' vs inp cuts od stop) = tl ts.
Proof.
  intros ts. unfold split. fold ts.
  pose proof (consecutive_pairs_forall (fun a b => 1#10 <= b - a) ts Hgap) as F.
  destruct (split_loop_all vs inp cuts od (path_stem inp)
              (if export_telemetry_srt vs then find_dji_subtitle_stream inp else None)
              stop Hstop _ 1 F) as (I1 & I2 & I3).
  assert (L : List.length (removelast ts) = List.length (tl ts)).
  { subst ts. unfold split_timestamps. rewrite removelast_last. cbn [tl app List.length].
    rewrite length_app. cbn [List.length]. lia. }
  destruct (map_combine_fst_snd _ _ L) as [M1 M2].
  rewrite I1, I2, I3, M1, M2. split; [|split; reflexivity].
  rewrite length_combine, L. subst ts. unfold split_timestamps. cbn [tl app].
  rewrite length_app, length_map. cbn [List.length]. f_equal. lia.
Qed.

End SplitterTheorems.

Lemma consecutive_of_pairs (P : Q -> Q -> Prop) :
  forall ts, Forall (fun ab => P (fst ab) (snd ab)) (combine (removelast ts) (tl ts)) ->
  forall l1 a b l2, ts = l1 ++ a :: b :: l2 -> P a b.
Proof.
  induction ts as [|x [|y r] IH]; intros F l1 a b l2 E.
  - destruct l1; discriminate.
  - destruct l1 as [|? [|]]; discriminate.
  - change (combine (removelast (x :: y :: r)) (tl (x :: y :: r)))
      with ((x, y) :: combine (removelast (y :: r)) (tl (y :: r))) in F.
    inversion F as [|? ? Fxy Frest]; subst.
    destruct l1 as [|z l1]; cbn in E.
    + injection E as <- <- _. exact Fxy.
    + injection E as _ E. exact (IH Frest l1 a b l2 E).
Qed.

(** ** Runs of the further properties *)
Module ExtraRuns.
Import Sample.

Ltac eval_decide := vm_compute; first [reflexivity | discriminate | intro; discriminate].

Lemma analyze_flow_flags_need_motion_witness :
  let m := analyze_flow sqrt_q arctan2_q sin_q cos_q log_q pi_q zoom_flow 1 in
  (is_divergent m = true \/ is_rotational m = true) /\
  1 <= mean (pixel_magnitudes sqrt_q arctan2_q pi_q zoom_flow) /\
  3#10 <= mean (pixel_magnitudes sqrt_q arctan2_q pi_q zoom_flow).
Proof.
  intros m.
  assert (Hd : is_divergent m = true \/ is_rotational m = true) by (left; eval_decide).
  split; [exact Hd|].
  exact (analyze_flow_flags_need_motion sqrt_q arctan2_q sin_q cos_q log_q pi_q zoom_flow 1 Hd).
Defined.

Lemma detect_motion_change_confidence_witness :
  let c := detect_motion_change arctan2_q sin_q cos_q pi_q motion_detector
             [0; 0; 0; 0] [2; 2; 0; 0] [RIGHT; RIGHT; NONE; NONE] in
  Forall (fun m => 0 <= m) [2; 2; 0; 0] /\
  0 <= change_confidence c /\ change_confidence c <= 1 /\
  (changed c = true -> exists t, change_type c = Some t) /\
  (changed c = false -> c = no_change).
Proof.
  intros c.
  assert (Hm : Forall (fun m => 0 <= m) [2; 2; 0; 0])
    by (repeat (apply Forall_cons; [eval_decide|]); apply Forall_nil).
  split; [exact Hm|].
  exact (detect_motion_change_confidence arctan2_q sin_q cos_q pi_q motion_detector
           [0; 0; 0; 0] [2; 2; 0; 0] [RIGHT; RIGHT; NONE; NONE] Hm).
Defined.

Lemma detect_motion_change_needs_two_witness :
  (List.length [45] < 2)%nat /\
  changed (detect_motion_change arctan2_q sin_q cos_q pi_q motion_detector
             [45] [5] [UP_RIGHT]) = false.
Proof.
  assert (H : (List.length [45] < 2)%nat) by (cbn; lia).
  split; [exact H|].
  exact (detect_motion_change_needs_two arctan2_q sin_q cos_q pi_q motion_detector
           [45] [5] [UP_RIGHT] H).
Defined.

Lemma is_scene_cut_spec_witness :
  let r := is_scene_cut Frame hist_04 ssim_09 0%nat 1%nat (1#5) (7#10) in
  0 < 1#5 /\ 7#10 < 1 /\
  (fst r = true <-> 1#5 < hist_04 0%nat 1%nat \/ ssim_09 0%nat 1%nat < 7#10) /\
  (fst r = false -> snd r = 0) /\
  (fst r = true -> 0 < snd r).
Proof.
  intros r.
  assert (Hh : 0 < 1#5) by eval_decide. assert (Hs : 7#10 < 1) by eval_decide.
  split; [exact Hh|]. split; [exact Hs|].
  exact (is_scene_cut_spec Frame hist_04 ssim_09 0%nat 1%nat (1#5) (7#10) Hh Hs).
Defined.

Lemma detect_chronological_witness :
  let cd := detector 0 4 1 in
  let src := source 1 (frames 5) in
  let cuts := [cut_at 2 2; cut_at 3 3; cut_at 4 4; cut_at 5 5] in
  run cd src = Ok cuts /\
  spaced 1 cuts /\
  Forall (fun e => (1 < frame e /\ frame e <= Z.of_nat (List.length (reads _ src)))%Z) cuts /\
  (0 <= cap_fps _ src ->
     forall l1 e1 e2 l2, cuts = l1 ++ e1 :: e2 :: l2 -> timestamp e1 < timestamp e2).
Proof.
  intros cd src cuts.
  assert (H : run cd src = Ok cuts) by eval_decide.
  split; [exact H|].
  exact (detect_chronological Frame cvt_gray still_flow hist_04 ssim_09 sqrt_q arctan2_q
           sin_q cos_q log_q pi_q cd src (fun _ => false) cuts H).
Defined.

Lemma detect_window_one_scene_only_witness :
  let cd := detector 0 1 1 in
  let src := source 1 (frames 5) in
  let cuts := [cut_at 2 2; cut_at 3 3; cut_at 4 4; cut_at 5 5] in
  (window_size cd <= 1)%Z /\ run cd src = Ok cuts /\
  Forall (fun e => cut_type e = "corte_de_cena"%string) cuts.
Proof.
  intros cd src cuts.
  assert (Hws : (window_size cd <= 1)%Z) by eval_decide.
  assert (H : run cd src = Ok cuts) by eval_decide.
  split; [exact Hws|]. split; [exact H|].
  exact (detect_window_one_scene_only Frame cvt_gray still_flow hist_04 ssim_09 sqrt_q
           arctan2_q sin_q cos_q log_q pi_q cd src (fun _ => false) cuts Hws H).
Defined.

Lemma detect_with_signal_spacing_witness :
  let cd := detector 0 4 1 in
  let src := source 1 (frames 12) in
  let cuts := [cut_at 5 5; cut_at 9 9] in
  worker_run cd src = Ok cuts /\
  spaced (Z.max (min_frames_between_cuts cd (effective_fps _ src))
                (window_size cd * (frame_skip cd + 1))) cuts.
Proof.
  intros cd src cuts.
  assert (H : worker_run cd src = Ok cuts) by eval_decide.
  split; [exact H|].
  exact (detect_with_signal_spacing Frame cvt_gray still_flow hist_04 ssim_09 sqrt_q
           arctan2_q sin_q cos_q log_q pi_q cd src (fun _ => false) cuts H).
Defined.

Lemma split_segment_bounds_witness :
  let segs := sample_split (fun _ => false) in
  let s := nth 1 segs no_seg in
  In s segs /\
  let ts := split_timestamps duration_10 "clip.mp4" split_cuts in
  (1 <= index _ s <= S (List.length split_cuts))%nat /\
  seg_start _ s = nth (index _ s - 1) ts 0 /\ seg_end _ s = nth (index _ s) ts 0 /\
  duration _ s = seg_end _ s - seg_start _ s /\ 1#10 <= duration _ s /\
  ((index _ s <= List.length split_cuts)%nat ->
     seg_cut_type _ s = cut_type (nth (index _ s - 1) split_cuts no_event)) /\
  (index _ s = S (List.length split_cuts) -> seg_cut_type _ s = "fim"%string).
Proof.
  intros segs s.
  assert (H : In s segs) by (apply nth_In; vm_compute; lia).
  split; [exact H|].
  exact (split_segment_bounds unit ffmpeg_ok file_exists stem_clip fmt_zero
           duration_10 dji_stream_2 thumb_unit splitter "clip.mp4" split_cuts "out"
           (fun _ => false) s H).
Defined.

Lemma split_artifacts_need_success_witness :
  let segs := sample_split (fun _ => false) in
  let s := nth 0 segs no_seg in
  In s segs /\
  (forall p, telemetry_srt _ s = Some p ->
     success _ s = true /\ export_telemetry_srt splitter = true /\ file_exists p = true) /\
  (thumbnail _ s <> None -> success _ s = true /\ file_exists (seg_path _ s) = true).
Proof.
  intros segs s.
  assert (H : In s segs) by (apply nth_In; vm_compute; lia).
  split; [exact H|].
  exact (split_artifacts_need_success unit ffmpeg_ok file_exists stem_clip fmt_zero
           duration_10 dji_stream_2 thumb_unit splitter "clip.mp4" split_cuts "out"
           (fun _ => false) s H).
Defined.

Lemma split_stop_witness :
  (fun k => Nat.eqb k 1) 1%nat = true /\
  Forall (fun s => (index _ s <= 1)%nat) (sample_split (fun k => Nat.eqb k 1)).
Proof.
  assert (Hk : (fun k => Nat.eqb k 1) 1%nat = true) by reflexivity.
  split; [exact Hk|].
  exact (split_stop unit ffmpeg_ok file_exists stem_clip fmt_zero
           duration_10 dji_stream_2 thumb_unit splitter "clip.mp4" split_cuts "out"
           (fun k => Nat.eqb k 1) 1 Hk).
Defined.

Lemma split_covers_video_witness :
  let ts := split_timestamps duration_10 "clip.mp4" split_cuts in
  (forall k : nat, (fun _ : nat => false) k = false) /\
  (forall l1 a b l2, ts = l1 ++ a :: b :: l2 -> 1#10 <= b - a) /\
  map (index _) (sample_split (fun _ => false)) = seq 1 (S (List.length split_cuts)) /\
  map (seg_start _) (sample_split (fun _ => false)) = removelast ts /\
  map (seg_end _) (sample_split (fun _ => false)) = tl ts.
Proof.
  intros ts.
  assert (Hs : forall k : nat, (fun _ : nat => false) k = false) by reflexivity.
  assert (Hg : forall l1 a b l2, ts = l1 ++ a :: b :: l2 -> 1#10 <= b - a).
  { apply (consecutive_of_pairs (fun a b => 1#10 <= b - a)). vm_compute.
    repeat (apply Forall_cons; [eval_decide|]). apply Forall_nil. }
  split; [exact Hs|]. split; [exact Hg|].
  exact (split_covers_video unit ffmpeg_ok file_exists stem_clip fmt_zero
           duration_10 dji_stream_2 thumb_unit splitter "clip.mp4" split_cuts "out"
           (fun _ => false) Hs Hg).
Defined.

End ExtraRuns.
